(** * AsyncAPI Python client generator: embedding and verified properties

    The development follows [generate_client.py].  It has three layers:

    - [PyStr]: the handful of Python [str] methods and the two [re.sub]
      calls the generator uses, over [string];
    - the generator itself ([to_pascal_case], [to_snake_case],
      [to_kebab_case], [get_python_type], [generate_client_code]), which
      builds the client text by appending to an accumulator exactly as the
      source does with [code += ...];
    - [Runtime]: the behaviour of the client class that the emitted text
      defines ([connect], [disconnect], [_on_close], [_on_message],
      [register_message_handler], [send_message]), as programs in a small
      state-and-exception monad over the client's fields and an output log.

    Modelling conventions.

    - Text is a [string] of 8-bit characters, the UTF-8 form of the
      Python text.  Case mapping ([upper], [lower], [capitalize]) is
      Python's on ASCII text; bytes above 127 are left as they are, which
      is not what Python does with a cased character outside ASCII.  A
      statement whose truth depends on the case mapping of its input
      carries the hypothesis [is_ascii].  The regular-expression classes
      [[A-Z]], [[a-z]], [[0-9]] are ASCII ranges in Python as well.
    - A specification is the parsed JSON document with the value types the
      AsyncAPI format gives to the keys the generator reads: a dict becomes
      a record of optional fields, a dict that is iterated becomes an
      association list in insertion order.  On such input no operation of
      [generate_client_code] can raise, so the generator is a total
      function.
    - [set(...)] is a list of its members in an order the generator never
      observes; every function that builds a set takes the set constructor
      [mkset] as an argument.
    - At run time the libraries and the network are an environment of
      oracles ([Runtime.env]).  Errors are those of class [Exception];
      [print] raises where the line holds text of a frame that standard
      output cannot encode ([Runtime.print_value], [Runtime.print_text]);
      a registered handler either returns or raises, and what it does to
      the client through its own references is not modelled.  The one
      place where the two threads of the client interleave in this model
      is [time.sleep].
    - The other generated files ([generate_pyproject_toml],
      [generate_readme]) are modelled like the client text.  [_on_error]
      and its handler list have a trace type of their own
      ([ErrorHandlers]); of the test library the message buffer and the
      scan of the wait loop are modelled ([Adapter]), its logging is left
      out. *)

From Stdlib Require Import String Ascii List NArith Bool Lia.
From stdpp Require Import gmap strings list.
Import ListNotations.

Set Warnings "-register-all".

(** ** Python string operations *)

Module PyStr.

Definition is_upper (c : ascii) : bool := (("A" <=? c) && (c <=? "Z"))%char.
Definition is_lower (c : ascii) : bool := (("a" <=? c) && (c <=? "z"))%char.
Definition is_digit (c : ascii) : bool := (("0" <=? c) && (c <=? "9"))%char.

Definition lower_char (c : ascii) : ascii :=
  if is_upper c then ascii_of_N (N_of_ascii c + 32) else c.

Definition upper_char (c : ascii) : ascii :=
  if is_lower c then ascii_of_N (N_of_ascii c - 32) else c.

Fixpoint smap (f : ascii -> ascii) (s : string) : string :=
  match s with
  | EmptyString => EmptyString
  | String c r => String (f c) (smap f r)
  end.

Fixpoint sforall (p : ascii -> bool) (s : string) : bool :=
  match s with
  | EmptyString => true
  | String c r => p c && sforall p r
  end.

(** [s.upper()] and [s.lower()], as they act on ASCII text *)
Definition upper : string -> string := smap upper_char.
Definition lower : string -> string := smap lower_char.

(** [s.capitalize()], as it acts on ASCII text: first character
    upper-cased, the rest lower-cased *)
Definition capitalize (s : string) : string :=
  match s with
  | EmptyString => EmptyString
  | String c r => String (upper_char c) (lower r)
  end.

(** [s.replace(old, new)] for one-character [old] and [new] *)
Definition replace (old new : ascii) : string -> string :=
  smap (fun c => if Ascii.eqb c old then new else c).

(** [s.replace(old, '')] for a one-character [old] *)
Fixpoint remove (old : ascii) (s : string) : string :=
  match s with
  | EmptyString => EmptyString
  | String c r => if Ascii.eqb c old then remove old r else String c (remove old r)
  end.

(** [s.split(sep)] for a one-character [sep]: never empty, keeps empty
    segments *)
Fixpoint split (sep : ascii) (s : string) : list string :=
  match s with
  | EmptyString => [EmptyString]
  | String c r =>
      if Ascii.eqb c sep then EmptyString :: split sep r
      else match split sep r with
           | w :: ws => String c w :: ws
           | [] => [String c EmptyString]
           end
  end.

(** [''.join(l)] *)
Fixpoint join (l : list string) : string :=
  match l with
  | [] => EmptyString
  | w :: ws => w +:+ join ws
  end.

(** [l[-1]] on the result of a [split], which is never empty *)
Definition last_segment (l : list string) : string := List.last l EmptyString.

(** [re.sub('(.)([A-Z][a-z]+)', r'\1_\2', s)].

    The scan goes left to right.  At a position holding [c u l] with [c]
    any character but a newline, [u] in [A-Z] and [l] in [a-z], the match
    takes those three and then every following lower-case letter (the
    greedy [+]); the text is copied with [_] put after [c], and the scan
    resumes after the match.  [in_run] is true while the letters of a
    match are still being consumed. *)
Fixpoint re_sub_word (in_run : bool) (s : string) : string :=
  match s with
  | EmptyString => EmptyString
  | String c t =>
      if in_run && is_lower c then String c (re_sub_word true t)
      else
        match t with
        | String u (String l rest) =>
            if negb (Ascii.eqb c "010") && is_upper u && is_lower l
            then String c (String "_" (String u (String l (re_sub_word true rest))))
            else String c (re_sub_word false t)
        | _ => String c (re_sub_word false t)
        end
  end.

(** [re.sub('([a-z0-9])([A-Z])', r'\1_\2', s)] *)
Fixpoint re_sub_hump (s : string) : string :=
  match s with
  | EmptyString => EmptyString
  | String a t =>
      match t with
      | String b rest =>
          if (is_lower a || is_digit a) && is_upper b
          then String a (String "_" (String b (re_sub_hump rest)))
          else String a (re_sub_hump t)
      | EmptyString => String a EmptyString
      end
  end.

End PyStr.

(** ** Name normalisation *)

Definition to_pascal_case (text : string) : string :=
  PyStr.join
    (map PyStr.capitalize
       (PyStr.split "_" (PyStr.replace " " "_" (PyStr.replace "-" "_" text)))).

Definition to_snake_case (text : string) : string :=
  let s1 := PyStr.re_sub_word false text in
  PyStr.lower (PyStr.re_sub_hump s1).

Definition to_kebab_case (text : string) : string :=
  PyStr.replace "_" "-" (to_snake_case text).

(** [to_pascal_case(title.replace(' ', '')) + 'Client'], as both
    [generate_client] and [generate_client_code] compute it *)
Definition client_class_name (title : string) : string :=
  to_pascal_case (PyStr.remove " " title) +:+ "Client".

(** The reading of "Pascal = word-capitalized snake": capitalize each
    underscore-separated word of the snake form and concatenate. *)
Definition word_capitalized (snake : string) : string :=
  PyStr.join (map PyStr.capitalize (PyStr.split "_" snake)).

Definition no_upper (x : string) : bool := PyStr.sforall (fun c => negb (PyStr.is_upper c)) x.
Definition no_char (sep : ascii) (x : string) : bool :=
  PyStr.sforall (fun c => negb (Ascii.eqb c sep)) x.

(** Text within ASCII, where [PyStr]'s case mapping is Python's *)
Definition is_ascii (x : string) : bool := PyStr.sforall (fun c => (c <=? "127")%char) x.

(** The consistency that C6 asks of the three conversions at [x] *)
Definition conversions_consistent (x : string) : Prop :=
  to_kebab_case x = PyStr.replace "_" "-" (to_snake_case x)
  /\ to_pascal_case x = word_capitalized (to_snake_case x).

(** *** A title case of more than one character

    [str.capitalize()] takes the title case of the first character from
    the Unicode character database, and that can be more than one
    character.  The database is not part of the repository; of its
    entries outside ASCII the one used here is U+0149 (the bytes [C5 89]),
    whose title case is U+02BC followed by [N] (the bytes [CA BC 4E]).
    [capitalize_special] is [str.capitalize()] on ASCII text and on ASCII
    text that follows one U+0149. *)
Definition title_case_special (s : string) : option (string * string) :=
  match s with
  | String "197" (String "137" rest) =>
      Some (String "202" (String "188" (String "N" EmptyString)), rest)
  | _ => None
  end.

Definition capitalize_special (s : string) : string :=
  match title_case_special s with
  | Some (first, rest) => first +:+ PyStr.lower rest
  | None => PyStr.capitalize s
  end.

(** [to_pascal_case] and the class name with this [capitalize] *)
Definition to_pascal_case_special (text : string) : string :=
  PyStr.join
    (map capitalize_special
       (PyStr.split "_" (PyStr.replace " " "_" (PyStr.replace "-" "_" text)))).

Definition client_class_name_special (title : string) : string :=
  to_pascal_case_special (PyStr.remove " " title) +:+ "Client".

(** The consequence that C10 draws, at one title: the class name is one
    capitalized segment followed by [Client], and no capital letter comes
    after the first character of the segment. *)
Definition single_capital (title : string) : Prop :=
  no_char "-" title = true -> no_char "_" title = true ->
  exists segment,
    client_class_name_special title = segment +:+ "Client"
    /\ segment = capitalize_special (PyStr.remove " " title)
    /\ match segment with
       | EmptyString => True
       | String first rest => no_upper rest = true
       end.

(** ** Specification documents *)

(** A schema object, with the keys the generator reads: [$ref], [type],
    [enum], [title], [description], [items], [properties], [required]. *)
Inductive schema : Type :=
  Schema (s_ref : option string)
         (s_type : option string)
         (s_enum : option (list string))
         (s_title : option string)
         (s_description : option string)
         (s_items : option schema)
         (s_properties : option (list (string * schema)))
         (s_required : option (list string)).

Definition s_ref (s : schema) := let 'Schema x _ _ _ _ _ _ _ := s in x.
Definition s_type (s : schema) := let 'Schema _ x _ _ _ _ _ _ := s in x.
Definition s_enum (s : schema) := let 'Schema _ _ x _ _ _ _ _ := s in x.
Definition s_title (s : schema) := let 'Schema _ _ _ x _ _ _ _ := s in x.
Definition s_description (s : schema) := let 'Schema _ _ _ _ x _ _ _ := s in x.
Definition s_items (s : schema) := let 'Schema _ _ _ _ _ x _ _ := s in x.
Definition s_properties (s : schema) := let 'Schema _ _ _ _ _ _ x _ := s in x.
Definition s_required (s : schema) := let 'Schema _ _ _ _ _ _ _ x := s in x.

(** The empty dict [{}] *)
Definition empty_schema : schema := Schema None None None None None None None None.

(** A message object of a channel; the generator reads none of its keys. *)
Record message_spec : Type := MessageSpec { payload_ref : option string }.

(** A channel object, with its optional [messages] dict. *)
Record channel : Type := Channel { messages : option (list (string * message_spec)) }.

(** [d.get(key, default)] on an optional field *)
Definition get {A : Type} (field : option A) (dflt : A) : A :=
  match field with Some v => v | None => dflt end.

(** [x in s] for a set [s] of strings *)
Definition set_in (x : string) (s : list string) : bool := existsb (String.eqb x) s.

(** ** Type mapping *)

(** [schema.get('items', {})] makes the recursive call on [{}] when the key
    is absent; that call returns ['Any'] (lemma [get_python_type_empty]),
    which is written out here to keep the recursion structural. *)
Fixpoint get_python_type (sch : schema) (all_schemas : list (string * schema)) : string :=
  match sch with
  | Schema ref type enum title _ items _ _ =>
      match ref with
      | Some r =>
          let ref_name := PyStr.last_segment (PyStr.split "/" r) in
          to_pascal_case ref_name
      | None =>
          let schema_type := get type "Any" in
          if String.eqb schema_type "string" then
            match enum with
            | Some _ => to_pascal_case (get title "UnknownEnum")
            | None => "str"
            end
          else if String.eqb schema_type "integer" then "int"
          else if String.eqb schema_type "number" then "float"
          else if String.eqb schema_type "boolean" then "bool"
          else if String.eqb schema_type "array" then
            let items_type :=
              match items with
              | Some i => get_python_type i all_schemas
              | None => "Any"
              end in
            "List[" +:+ items_type +:+ "]"
          else if String.eqb schema_type "object" then "Dict[str, Any]"
          else "Any"
      end
  end.

(** ** Code emission *)

(** The fixed text of the emitted module.  The pieces are the f-string
    literals of [generate_client_code], cut at their placeholders; in them a
    backquote stands for the double-quote character, which [tpl] puts
    back. *)
Definition dquote : ascii := "034".
Definition newline : string := String "010" EmptyString.
Definition tpl : string -> string := PyStr.replace "`" dquote.

Definition module_prologue (title : string) (description : string) : string :=
  tpl "```
AsyncAPI WebSocket Client for "
  +:+ title
  +:+ tpl ".

"
  +:+ description
  +:+ tpl "

This client was automatically generated from an AsyncAPI 3.0.0 specification.
```
import json
import ssl
import threading
import time
from dataclasses import dataclass
from enum import Enum
from typing import Any, Callable, Dict, List, Optional

try:
    import certifi
    import websocket
except ImportError as e:
    print(`❌ Missing required dependencies. Install with:`)
    print(`   pip install websocket-client certifi`)
    print(`   or: poetry install`)
    raise e


# Generated Enums
".

Definition enum_header (enum_class_name : string) (enum_description : string) : string :=
  tpl "
class "
  +:+ enum_class_name
  +:+ tpl "(Enum):
    ```"
  +:+ enum_description
  +:+ tpl ".```

".

Definition dataclass_header (class_name : string) (class_description : string) : string :=
  tpl "

@dataclass
class "
  +:+ class_name
  +:+ tpl ":
    ```"
  +:+ class_description
  +:+ tpl ".```

".

Definition client_class (client_class_name : string) (title : string) (description : string) (server_url : string) : string :=
  tpl "

class "
  +:+ client_class_name
  +:+ tpl ":
    ```
    AsyncAPI WebSocket Client for "
  +:+ title
  +:+ tpl ".
    
    "
  +:+ description
  +:+ tpl "
    
    This client provides WebSocket connectivity with automatic message routing,
    type-safe data handling, and comprehensive error management.
    ```

    def __init__(self, server_url: str = `"
  +:+ server_url
  +:+ tpl "`):
        ```
        Initialize the WebSocket client.
        
        Args:
            server_url: WebSocket server URL (default: "
  +:+ server_url
  +:+ tpl ")
        ```
        self.url = server_url
        self.ws = None
        self.message_handlers: Dict[str, List[Callable]] = {}
        self.error_handlers: List[Callable] = []
        self.connected = False
        self._thread = None
        self._should_reconnect = False

    def connect(self, auto_reconnect: bool = False) -> bool:
        ```
        Connect to the WebSocket server.
        
        Args:
            auto_reconnect: Whether to automatically reconnect on disconnect
            
        Returns:
            bool: True if connection successful, False otherwise
        ```
        try:
            self._should_reconnect = auto_reconnect
            
            # Create SSL context with certificate verification
            ssl_context = ssl.create_default_context(cafile=certifi.where())
            ssl_context.check_hostname = False
            ssl_context.verify_mode = ssl.CERT_NONE

            self.ws = websocket.WebSocketApp(
                self.url,
                on_open=self._on_open,
                on_message=self._on_message,
                on_error=self._on_error,
                on_close=self._on_close,
            )

            # Start WebSocket connection in separate thread
            self._thread = threading.Thread(
                target=self.ws.run_forever,
                kwargs={`sslopt`: {`cert_reqs`: ssl.CERT_NONE}},
                daemon=True
            )
            self._thread.start()

            # Wait for connection to establish
            time.sleep(1)
            return self.connected

        except Exception as e:
            print(f`❌ Connection failed: {e}`)
            return False

    def disconnect(self) -> None:
        ```Disconnect from the WebSocket server.```
        self._should_reconnect = False
        if self.ws:
            self.ws.close()
        self.connected = False

    def wait_for_disconnect(self) -> None:
        ```Block until the connection is closed.```
        if self._thread and self._thread.is_alive():
            self._thread.join()

    def is_connected(self) -> bool:
        ```Check if client is currently connected.```
        return self.connected

    def _on_open(self, ws) -> None:
        ```Handle WebSocket connection opened.```
        self.connected = True
        print(f`✅ Connected to {self.url}`)

    def _on_close(self, ws, close_status_code, close_msg) -> None:
        ```Handle WebSocket connection closed.```
        self.connected = False
        print(f`🔌 Disconnected from {self.url} `
              f`(code: {close_status_code}, message: {close_msg})`)
        
        if self._should_reconnect:
            print(`🔄 Attempting to reconnect...`)
            time.sleep(5)
            self.connect(auto_reconnect=True)

    def _on_error(self, ws, error) -> None:
        ```Handle WebSocket error.```
        print(f`❌ WebSocket error: {error}`)
        for handler in self.error_handlers:
            try:
                handler(error)
            except Exception as e:
                print(f`❌ Error handler failed: {e}`)

    def _on_message(self, ws, message: str) -> None:
        ```Handle incoming WebSocket message.```
        try:
            data = json.loads(message)
            message_type = data.get(`type`, `unknown`)

            if message_type in self.message_handlers:
                for handler in self.message_handlers[message_type]:
                    try:
                        handler(data)
                    except Exception as e:
                        print(f`❌ Message handler error: {e}`)
            else:
                print(f`⚠️  No handler for message type: {message_type}`)

        except json.JSONDecodeError as e:
            print(f`❌ Failed to decode message: {e}`)
            print(f`   Raw message: {message}`)

    def register_message_handler(
        self,
        message_type: str,
        handler: Callable[[Dict[str, Any]], None]
    ) -> None:
        ```
        Register a handler for specific message types.
        
        Args:
            message_type: Type of message to handle
            handler: Function to call when message is received
        ```
        if message_type not in self.message_handlers:
            self.message_handlers[message_type] = []
        self.message_handlers[message_type].append(handler)

    def register_error_handler(
        self,
        handler: Callable[[Exception], None]
    ) -> None:
        ```
        Register an error handler.
        
        Args:
            handler: Function to call when errors occur
        ```
        self.error_handlers.append(handler)

    def send_message(self, data: Dict[str, Any]) -> bool:
        ```
        Send a message to the server.
        
        Args:
            data: Message data to send
            
        Returns:
            bool: True if message sent successfully, False otherwise
        ```
        if not self.connected or not self.ws:
            print(`❌ Cannot send message: Not connected to server`)
            return False

        try:
            message = json.dumps(data, default=str)
            self.ws.send(message)
            return True
        except Exception as e:
            print(f`❌ Failed to send message: {e}`)
            return False

    def send_raw_message(self, message: str) -> bool:
        ```
        Send a raw string message to the server.
        
        Args:
            message: Raw message string to send
            
        Returns:
            bool: True if message sent successfully, False otherwise
        ```
        if not self.connected or not self.ws:
            print(`❌ Cannot send message: Not connected to server`)
            return False

        try:
            self.ws.send(message)
            return True
        except Exception as e:
            print(f`❌ Failed to send raw message: {e}`)
            return False
".

Definition message_methods (method_name : string) (message_name : string) : string :=
  tpl "
    def send_"
  +:+ method_name
  +:+ tpl "(self, payload: Dict[str, Any]) -> bool:
        ```
        Send "
  +:+ message_name
  +:+ tpl " message.
        
        Args:
            payload: Message payload data
            
        Returns:
            bool: True if message sent successfully
        ```
        message_data = {
            `type`: `"
  +:+ message_name
  +:+ tpl "`,
            `payload`: payload
        }
        return self.send_message(message_data)

    def on_"
  +:+ method_name
  +:+ tpl "(
        self, 
        handler: Callable[[Dict[str, Any]], None]
    ) -> None:
        ```
        Register handler for "
  +:+ message_name
  +:+ tpl " messages.
        
        Args:
            handler: Function to call when "
  +:+ message_name
  +:+ tpl " is received
        ```
        self.register_message_handler(`"
  +:+ message_name
  +:+ tpl "`, handler)
".

Definition main_prologue (title : string) (client_class_name : string) : string :=
  tpl "

def main() -> None:
    ```Example usage of the "
  +:+ title
  +:+ tpl " client.```
    client = "
  +:+ client_class_name
  +:+ tpl "()
    
    print(f`🚀 Starting {client.__class__.__name__}...`)
    print(f`   Server URL: {client.url}`)
    
    # Register message handlers
".

Definition example_handler (method_name : string) (message_name : string) : string :=
  tpl "
    def handle_"
  +:+ method_name
  +:+ tpl "(data: Dict[str, Any]) -> None:
        ```Handle "
  +:+ message_name
  +:+ tpl " messages.```
        payload = data.get(`payload`, {})
        print(f`📨 Received "
  +:+ message_name
  +:+ tpl ": {payload}`)
    
    client.on_"
  +:+ method_name
  +:+ tpl "(handle_"
  +:+ method_name
  +:+ tpl ")
".

Definition main_epilogue : string :=
  tpl "
    # Register error handler
    def handle_error(error: Exception) -> None:
        ```Handle connection errors.```
        print(f`❌ Connection error: {error}`)
    
    client.register_error_handler(handle_error)
    
    # Connect to server
    if client.connect(auto_reconnect=True):
        print(`✅ Connected! Press Ctrl+C to disconnect.`)
        
        # Example: Send a message after connection
        # Uncomment and modify as needed:
        # client.send_your_message({`example`: `data`})
        
        try:
            # Keep client running
            client.wait_for_disconnect()
        except KeyboardInterrupt:
            print(`\n🛑 Shutting down...`)
            client.disconnect()
    else:
        print(`❌ Failed to connect to server`)
        return 1
    
    return 0


if __name__ == `__main__`:
    exit(main())
".

(** The constant name of an enum value *)
Definition const_name (enum_value : string) : string :=
  PyStr.replace "." "_"
    (PyStr.replace " " "_" (PyStr.replace "-" "_" (PyStr.upper enum_value))).

Definition const_line (enum_value : string) : string :=
  "    " +:+ const_name enum_value +:+ tpl " = `" +:+ enum_value +:+ tpl "`" +:+ newline.

(** A string schema with a non-empty [enum] *)
Definition is_enum_schema (sch : schema) : bool :=
  match s_type sch, s_enum sch with
  | Some t, Some (_ :: _) => String.eqb t "string"
  | _, _ => false
  end.

Definition is_object_schema (sch : schema) : bool :=
  match s_type sch with
  | Some t => String.eqb t "object"
  | None => false
  end.

(** The loop over [schemas.items()] that emits the enums *)
Definition emit_enums (schemas : list (string * schema)) (code : string) : string :=
  fold_left
    (fun code '(schema_name, sch) =>
       if is_enum_schema sch then
         let enum_class_name := to_pascal_case schema_name in
         let enum_description := get (s_description sch) ("Enum for " +:+ schema_name) in
         let code := code +:+ enum_header enum_class_name enum_description in
         fold_left (fun code enum_value => code +:+ const_line enum_value)
                   (get (s_enum sch) []) code
       else code)
    schemas code.

Section Emitter.

(** [set(l)]: the members of [l] in the order of the run's hash table *)
Variable mkset : list string -> list string.

Definition required_field (prop_name : string) (prop_schema : schema)
    (schemas : list (string * schema)) : string :=
  let prop_type := get_python_type prop_schema schemas in
  let prop_desc := get (s_description prop_schema) "" in
  let code := "    " +:+ prop_name +:+ ": " +:+ prop_type in
  let code := if String.eqb prop_desc "" then code else code +:+ "  # " +:+ prop_desc in
  code +:+ newline.

Definition optional_field (prop_name : string) (prop_schema : schema)
    (schemas : list (string * schema)) : string :=
  let prop_type := get_python_type prop_schema schemas in
  let prop_desc := get (s_description prop_schema) "" in
  let code := "    " +:+ prop_name +:+ ": Optional[" +:+ prop_type +:+ "] = None" in
  let code := if String.eqb prop_desc "" then code else code +:+ "  # " +:+ prop_desc in
  code +:+ newline.

(** The body of the loop that emits the data classes, for one schema *)
Definition emit_dataclass (schemas : list (string * schema))
    (schema_name : string) (sch : schema) (code : string) : string :=
  let properties := get (s_properties sch) [] in
  let required := mkset (get (s_required sch) []) in
  let class_name := to_pascal_case schema_name in
  let class_description := get (s_description sch) ("Data class for " +:+ schema_name) in
  let code := code +:+ dataclass_header class_name class_description in
  let code :=
    fold_left
      (fun code '(prop_name, prop_schema) =>
         if set_in prop_name required
         then code +:+ required_field prop_name prop_schema schemas
         else code)
      properties code in
  fold_left
    (fun code '(prop_name, prop_schema) =>
       if negb (set_in prop_name required)
       then code +:+ optional_field prop_name prop_schema schemas
       else code)
    properties code.

Definition emit_dataclasses (schemas : list (string * schema)) (code : string) : string :=
  fold_left
    (fun code '(schema_name, sch) =>
       if is_object_schema sch then emit_dataclass schemas schema_name sch code
       else code)
    schemas code.

(** The two loops over [channels.items()] and their messages *)
Definition emit_per_message (piece : string -> string -> string)
    (channels : list (string * channel)) (code : string) : string :=
  fold_left
    (fun code '(channel_name, chan) =>
       fold_left
         (fun code '(message_name, spec) =>
            let method_name := PyStr.lower (to_snake_case message_name) in
            code +:+ piece method_name message_name)
         (get (messages chan) []) code)
    channels code.

Definition generate_client_code (title description server_url : string)
    (schemas : list (string * schema)) (channels : list (string * channel)) : string :=
  let class_name := client_class_name title in
  let code := module_prologue title description in
  let code := emit_enums schemas code in
  let code := code +:+ newline +:+ newline +:+ "# Generated Data Classes" in
  let code := emit_dataclasses schemas code in
  let code := code +:+ client_class class_name title description server_url in
  let code := emit_per_message message_methods channels code in
  let code := code +:+ main_prologue title class_name in
  let code := emit_per_message example_handler channels code in
  let code := code +:+ main_epilogue in
  code.

End Emitter.

(** What a set constructor has to satisfy: the set has the members of the
    list, in whatever order. *)
Definition set_constructor (mkset : list string -> list string) : Prop :=
  forall (l : list string) (x : string), In x (mkset l) <-> In x l.

(** [name in schema['required']], on the schema's own list *)
Definition is_required (sch : schema) (prop : string * schema) : bool :=
  set_in (fst prop) (get (s_required sch) []).

(** The enum-constant rule of the specification, character by character *)
Definition underscore_of (c : ascii) : ascii :=
  if Ascii.eqb c "-" || Ascii.eqb c " " || Ascii.eqb c "." then "_"%char else c.

(** A property that is only a reference: [{"$ref": r}] *)
Definition ref_to (r : string) : schema :=
  Schema (Some r) None None None None None None None.

(** The schema table as a dict: [name in all_schemas] *)
Definition in_table (name : string) (all_schemas : list (string * schema)) : bool :=
  existsb (fun entry => String.eqb (fst entry) name) all_schemas.

(** The generic type of [get_python_type] *)
Definition generic_type : string := "Any".

(** C2 as stated, at one property and schema table: a reference whose
    target is absent is typed generically. *)
Definition dangling_degrades (r : string) (all_schemas : list (string * schema)) : Prop :=
  in_table (PyStr.last_segment (PyStr.split "/" r)) all_schemas = false ->
  get_python_type (ref_to r) all_schemas = generic_type.

(** ** The emitted client at run time *)

Module Runtime.

(** Decoded JSON.  Numbers are kept as integers: the client only tests a
    number for being a dictionary key, which no number is. *)
Inductive json : Type :=
| JNull
| JBool (b : bool)
| JNumber (n : Z)
| JString (s : string)
| JArray (items : list json)
| JObject (fields : list (string * json)).

(** A registered callable, named by its identity *)
Definition handler : Type := nat.

(** The errors of class [Exception] that the client's code can meet.
    Interpreter-level signals ([KeyboardInterrupt], [SystemExit]) are not
    part of the model. *)
Inductive exn : Type :=
| JSONDecodeError
| AttributeError
| TypeError
| UnicodeEncodeError
| Failure (code : nat).

(** What the client prints *)
Inductive report : Type :=
| ConnectedTo (url : string)
| DisconnectedFrom (url : string) (close_status_code : Z) (close_msg : string)
| AttemptingReconnect
| ConnectionFailed (e : exn)
| HandlerError (e : exn)
| NoHandler (message_type : json)
| DecodeFailed (e : exn)
| RawMessage (message : string)
| NotConnected
| SendFailed (e : exn).

(** What the client does to the world outside its own fields *)
Inductive event : Type :=
| Print (r : report)
| Call (h : handler) (data : json)
| Create (ws : nat) (url : string)
| Start (ws : nat)
| Send (ws : nat) (text : string)
| Close (ws : nat)
| Sleep (seconds : nat).

(** The fields that [__init__] sets *)
Record client : Type := Client {
  url : string;
  ws : option nat;
  message_handlers : gmap string (list handler);
  error_handlers : list handler;
  connected : bool;
  _thread : option nat;
  _should_reconnect : bool
}.

Definition __init__ (server_url : string) : client :=
  {| url := server_url; ws := None; message_handlers := ∅; error_handlers := [];
     connected := false; _thread := None; _should_reconnect := false |}.

Definition set_ws (v : option nat) (c : client) : client :=
  {| url := url c; ws := v; message_handlers := message_handlers c;
     error_handlers := error_handlers c; connected := connected c;
     _thread := _thread c; _should_reconnect := _should_reconnect c |}.

Definition set_message_handlers (v : gmap string (list handler)) (c : client) : client :=
  {| url := url c; ws := ws c; message_handlers := v;
     error_handlers := error_handlers c; connected := connected c;
     _thread := _thread c; _should_reconnect := _should_reconnect c |}.

Definition set_connected (v : bool) (c : client) : client :=
  {| url := url c; ws := ws c; message_handlers := message_handlers c;
     error_handlers := error_handlers c; connected := v;
     _thread := _thread c; _should_reconnect := _should_reconnect c |}.

Definition set_thread (v : option nat) (c : client) : client :=
  {| url := url c; ws := ws c; message_handlers := message_handlers c;
     error_handlers := error_handlers c; connected := connected c;
     _thread := v; _should_reconnect := _should_reconnect c |}.

Definition set_should_reconnect (v : bool) (c : client) : client :=
  {| url := url c; ws := ws c; message_handlers := message_handlers c;
     error_handlers := error_handlers c; connected := connected c;
     _thread := _thread c; _should_reconnect := v |}.

(** The client object, the log of its effects so far, and the number of
    transports created so far *)
Record world : Type := World {
  self : client;
  log : list event;
  created : nat
}.

(** What the libraries and the network do.  Each answer may depend on the
    history, so handlers and transports with their own state are covered.

    - [json_loads]: [None] is a [JSONDecodeError]; a frame on which
      [json.loads] raises another error (a [ValueError] for an integer
      beyond the digit limit, a [RecursionError]) is outside the model;
    - [json_dumps]: serialization of the caller's data, or the error it
      raises;
    - [run_handler]: [None] when the callable returns, [Some e] when it
      raises [e];
    - [transport_write]: [ws.send], [None] when the write succeeds;
    - [handshake]: whether [_on_open] has run when the one-second wait of
      [connect] ends. *)
Record env : Type := Env {
  pyobj : Type;
  json_loads : string -> option json;
  json_dumps : pyobj -> exn + string;
  run_handler : list event -> handler -> json -> option exn;
  transport_write : list event -> nat -> string -> option exn;
  handshake : list event -> nat -> bool
}.

Inductive outcome (A : Type) : Type :=
| Returned (a : A)
| Raised (e : exn).
Arguments Returned {A} a.
Arguments Raised {A} e.

Definition prog (A : Type) : Type := world -> outcome A * world.

Definition ret {A} (a : A) : prog A := fun w => (Returned a, w).

Definition bind {A B} (m : prog A) (k : A -> prog B) : prog B :=
  fun w => match m w with
           | (Returned a, w') => k a w'
           | (Raised e, w') => (Raised e, w')
           end.

Definition raise {A} (e : exn) : prog A := fun w => (Raised e, w).

(** [try: body except <class> as e: handle(e)] *)
Definition try_except {A} (body : prog A) (class : exn -> bool)
    (handle : exn -> prog A) : prog A :=
  fun w => match body w with
           | (Raised e, w') => if class e then handle e w' else (Raised e, w')
           | r => r
           end.

Definition Exception (e : exn) : bool := true.

Definition is_JSONDecodeError (e : exn) : bool :=
  match e with JSONDecodeError => true | _ => false end.

Definition emit (ev : event) : prog unit :=
  fun w => (Returned tt, {| self := self w; log := log w ++ [ev]; created := created w |}).

(** [print] of a line that holds no text of a frame: a fixed text, the
    URL, a close reason or the text of an error *)
Definition print (r : report) : prog unit := emit (Print r).

(** Text is held as the bytes of its UTF-8 form.  A JSON escape such as
    [\ud800] decodes to a lone surrogate, which has no UTF-8 form and
    which no encoding of standard output accepts; it is held as the three
    bytes [ED A0..BF ..] of the generalised form, which no UTF-8 text
    contains.  [encodable s] says that [s] holds none. *)
Fixpoint encodable (s : string) : bool :=
  match s with
  | EmptyString => true
  | String c rest =>
      match rest with
      | String d _ => negb (Ascii.eqb c "237" && ("160" <=? d)%char && (d <=? "191")%char)
      | EmptyString => true
      end && encodable rest
  end.

(** The text of a decoded value, as an f-string formats it, can be
    written *)
Fixpoint printable (v : json) : bool :=
  match v with
  | JString s => encodable s
  | JArray items => forallb printable items
  | JObject fields => forallb (fun kv => encodable (fst kv) && printable (snd kv)) fields
  | _ => true
  end.

(** [print] of a line that holds the text of the decoded value [v]:
    standard output raises [UnicodeEncodeError] on text it cannot encode,
    and then nothing is printed *)
Definition print_value (v : json) (r : report) : prog unit :=
  if printable v then print r else raise UnicodeEncodeError.

(** The same for a line that holds the text of a frame *)
Definition print_text (text : string) (r : report) : prog unit :=
  if encodable text then print r else raise UnicodeEncodeError.

Definition read {A} (field : client -> A) : prog A :=
  fun w => (Returned (field (self w)), w).

Definition assign (setter : client -> client) : prog unit :=
  fun w => (Returned tt, {| self := setter (self w); log := log w; created := created w |}).

Definition history : prog (list event) := fun w => (Returned (log w), w).

(** [websocket.WebSocketApp(url, ...)]: a new transport, numbered in
    order of creation *)
Definition new_transport (u : string) : prog nat :=
  fun w => (Returned (created w),
            {| self := self w; log := log w ++ [Create (created w) u];
               created := S (created w) |}).

Declare Scope prog_scope.
Delimit Scope prog_scope with prog.
Notation "x <- m ;; k" := (bind m (fun x => k))
  (at level 100, m at next level, right associativity) : prog_scope.
Notation "m ;; k" := (bind m (fun _ => k))
  (at level 100, right associativity) : prog_scope.
Local Open Scope prog_scope.

(** [for x in l: body(x)] *)
Fixpoint for_each {A} (l : list A) (body : A -> prog unit) : prog unit :=
  match l with
  | [] => ret tt
  | x :: rest => body x ;; for_each rest body
  end.

(** [time.sleep(seconds)]: the thread is suspended, and [meanwhile] is
    what the other thread does to the client in that time.  An error of
    the other thread stays in that thread. *)
Definition sleep (seconds : nat) (meanwhile : prog unit) : prog unit :=
  emit (Sleep seconds) ;;
  try_except meanwhile Exception (fun _ => ret tt).

(** [data.get(key, default)]: only a dict has the method *)
Fixpoint assoc (key : string) (fields : list (string * json)) : option json :=
  match fields with
  | [] => None
  | (k, v) :: rest => if String.eqb k key then Some v else assoc key rest
  end.

Definition dict_get (data : json) (key : string) (dflt : json) : prog json :=
  match data with
  | JObject fields => ret (get (assoc key fields) dflt)
  | _ => raise AttributeError
  end.

(** [key in d] for a dict [d] with string keys: a list or a dict cannot
    be hashed, any other value that is not a string equals no key *)
Definition dict_contains (d : gmap string (list handler)) (key : json) : prog bool :=
  match key with
  | JString s => ret (bool_decide (is_Some (d !! s)))
  | JArray _ | JObject _ => raise TypeError
  | _ => ret false
  end.

(** [d[key]], evaluated only where [key in d] holds *)
Definition dict_item (d : gmap string (list handler)) (key : json) : list handler :=
  match key with
  | JString s => get (d !! s) []
  | _ => []
  end.

Section Client.

Variable E : env.

(** [handler(data)] *)
Definition call (h : handler) (data : json) : prog unit :=
  past <- history ;;
  emit (Call h data) ;;
  match run_handler E past h data with
  | None => ret tt
  | Some e => raise e
  end.

Definition register_message_handler (message_type : string) (h : handler) : prog unit :=
  handlers <- read message_handlers ;;
  (if bool_decide (is_Some (handlers !! message_type)) then ret tt
   else assign (set_message_handlers (<[message_type := []]> handlers))) ;;
  handlers <- read message_handlers ;;
  assign (set_message_handlers
            (<[message_type := get (handlers !! message_type) [] ++ [h]]> handlers)).

Definition _on_open : prog unit :=
  assign (set_connected true) ;;
  u <- read url ;;
  print (ConnectedTo u).

(** [connect] creates a transport, starts its thread and waits one
    second.  The TLS context, [WebSocketApp(...)] and [Thread(...).start()]
    are taken to succeed, so nothing in the [try] block raises here and
    the [except] branch, which prints the error and returns [False], is
    written for the record only. *)
Definition connect (auto_reconnect : bool) : prog bool :=
  try_except
    (assign (set_should_reconnect auto_reconnect) ;;
     u <- read url ;;
     id <- new_transport u ;;
     assign (set_ws (Some id)) ;;
     assign (set_thread (Some id)) ;;
     emit (Start id) ;;
     past <- history ;;
     sleep 1 (if handshake E past id then _on_open else ret tt) ;;
     read connected)
    Exception
    (fun e => print (ConnectionFailed e) ;; ret false).

Definition disconnect : prog unit :=
  assign (set_should_reconnect false) ;;
  w <- read ws ;;
  match w with
  | Some id => emit (Close id)
  | None => ret tt
  end ;;
  assign (set_connected false).

(** [_on_close] runs on the transport's thread; [meanwhile] is what the
    caller's thread does during the five-second wait.  The code and the
    message are only printed.  The library passes [None] for both when
    the connection is lost without a close frame; the types here leave
    that case out. *)
Definition _on_close (close_status_code : Z) (close_msg : string)
    (meanwhile : prog unit) : prog unit :=
  assign (set_connected false) ;;
  u <- read url ;;
  print (DisconnectedFrom u close_status_code close_msg) ;;
  flag <- read _should_reconnect ;;
  if flag then
    print AttemptingReconnect ;;
    sleep 5 meanwhile ;;
    connect true ;;
    ret tt
  else ret tt.

Definition _on_message (message : string) : prog unit :=
  try_except
    (data <- match json_loads E message with
             | Some v => ret v
             | None => raise JSONDecodeError
             end ;;
     message_type <- dict_get data "type" (JString "unknown") ;;
     handlers <- read message_handlers ;;
     found <- dict_contains handlers message_type ;;
     if found then
       for_each (dict_item handlers message_type)
         (fun h =>
            try_except (call h data) Exception
              (fun e => print (HandlerError e)))
     else print_value message_type (NoHandler message_type))
    is_JSONDecodeError
    (fun e => print (DecodeFailed e) ;; print_text message (RawMessage message)).


End Client.

(** *** Vocabulary of the statements *)

(** The handler invocations of a log, in order *)
Fixpoint calls (l : list event) : list (handler * json) :=
  match l with
  | [] => []
  | Call h data :: rest => (h, data) :: calls rest
  | _ :: rest => calls rest
  end.


(** The transports created, in order *)
Fixpoint creations (l : list event) : list nat :=
  match l with
  | [] => []
  | Create id _ :: rest => id :: creations rest
  | _ :: rest => creations rest
  end.

(** A sequence of [register_message_handler] calls *)
Definition registrations (regs : list (string * handler)) : prog unit :=
  for_each regs (fun '(message_type, h) => register_message_handler message_type h).




(** Values that can be looked up in a dict *)
Definition hashable (v : json) : bool :=
  match v with
  | JArray _ | JObject _ => false
  | _ => true
  end.

(** What a dispatch to [hs] adds to the log: each handler is called, and a
    handler that raises is reported before the next one is called *)
Fixpoint dispatch_log (E : env) (past : list event) (hs : list handler) (data : json)
    : list event :=
  match hs with
  | [] => []
  | h :: rest =>
      let step :=
        Call h data ::
        match run_handler E past h data with
        | Some e => [Print (HandlerError e)]
        | None => []
        end in
      step ++ dispatch_log E (past ++ step) rest data
  end.


(** A client that is connected over transport [id] with auto-reconnect on *)
Definition connected_client (server_url : string) (id : nat) : world :=
  {| self := set_should_reconnect true
               (set_connected true
                  (set_thread (Some id) (set_ws (Some id) (__init__ server_url))));
     log := []; created := S id |}.

End Runtime.

(** ** The other generated files *)

(** The messages of all channels, in the order the generator visits them:
    channel by channel, and within a channel in the order of its
    [messages] *)
Definition all_messages (channels : list (string * channel)) : list string :=
  flat_map (fun entry => map fst (get (messages (snd entry)) [])) channels.

(** The method name of a message, as every loop over the messages computes
    it: [to_snake_case(message_name).lower()] *)
Definition method_name (message_name : string) : string :=
  PyStr.lower (to_snake_case message_name).

(** [s'] is [s] with underscores put in *)
Inductive underscored : string -> string -> Prop :=
| underscored_end : underscored EmptyString EmptyString
| underscored_keep (c : ascii) (s s' : string) :
    underscored s s' -> underscored (String c s) (String c s')
| underscored_put (s s' : string) :
    underscored s s' -> underscored s (String "_" s').

(** [-], [_] and space, the separators of [to_pascal_case] *)
Definition is_separator (c : ascii) : bool :=
  Ascii.eqb c "-" || Ascii.eqb c "_" || Ascii.eqb c " ".

Fixpoint remove_separators (s : string) : string :=
  match s with
  | EmptyString => EmptyString
  | String c r =>
      if is_separator c then remove_separators r else String c (remove_separators r)
  end.

(** The same template device with a tilde for the double quote, for text
    that has backquotes of its own *)
Definition tpl_tilde : string -> string := PyStr.replace "~" dquote.

(** [sep.join(l)] *)
Fixpoint join_with (sep : string) (l : list string) : string :=
  match l with
  | [] => EmptyString
  | [w] => w
  | w :: ws => w +:+ sep +:+ join_with sep ws
  end.

Definition pyproject_text (package_name : string) (description : string) : string :=
  tpl "[build-system]
requires = [`poetry-core`]
build-backend = `poetry.core.masonry.api`

[project]
name = `"
  +:+ package_name
  +:+ tpl "`
version = `1.0.0`
description = `"
  +:+ description
  +:+ tpl "`
authors = [
    {name = `Generated from AsyncAPI`, email = `contact@example.com`}
]
readme = `README.md`
requires-python = `>=3.8`
dependencies = [
    `websocket-client>=1.6.0`,
    `certifi>=2023.7.22`
]

[project.optional-dependencies]
dev = [
    `black>=23.0.0`,
    `isort>=5.12.0`,
    `flake8>=6.0.0`,
    `flake8-black>=0.3.6`,
    `flake8-isort>=6.0.0`,
    `pytest>=7.0.0`,
    `pytest-asyncio>=0.21.0`
]

[tool.poetry]
package-mode = false

[tool.black]
line-length = 88
target-version = ['py38']

[tool.isort]
profile = `black`
multi_line_output = 3
include_trailing_comma = true
force_grid_wrap = 0
use_parentheses = true
ensure_newline_before_comments = true
line_length = 88

[tool.pytest.ini_options]
testpaths = [`tests`]
python_files = [`test_*.py`, `*_test.py`]
python_classes = [`Test*`]
python_functions = [`test_*`]
".


(** [to_kebab_case(title.replace(' ', '-')) + '-client'] *)
Definition package_name (title : string) : string :=
  to_kebab_case (PyStr.replace " " "-" title) +:+ "-client".

Definition generate_pyproject_toml (title description : string) : string :=
  pyproject_text (package_name title) description.

Definition readme_text (title description class_name schema_docs method_docs : string)
    : string :=
  tpl_tilde "# "
  +:+ title
  +:+ tpl_tilde " Python Client

"
  +:+ description
  +:+ tpl_tilde "

This client was automatically generated from an AsyncAPI 3.0.0 specification.

## Installation

### Using Poetry (Recommended)
```bash
poetry install
```

### Using pip
```bash
pip install -e .

# For development
pip install -e .[dev]
```

## Quick Start

```python
from client import "
  +:+ class_name
  +:+ tpl_tilde "

# Create client
client = "
  +:+ class_name
  +:+ tpl_tilde "()

# Register message handlers
def handle_message(data):
    print(f~Received message: {data}~)

# Connect to server
if client.connect():
    print(~Connected successfully!~)
    
    # Your code here...
    
    client.disconnect()
else:
    print(~Failed to connect~)
```

## Features

- ✅ **WebSocket Support** - Full WebSocket client with SSL/TLS
- ✅ **Type Safety** - Generated dataclasses and enums  
- ✅ **Auto-Reconnection** - Configurable reconnection logic
- ✅ **Error Handling** - Comprehensive error management
- ✅ **Message Routing** - Type-safe message handlers
- ✅ **Modern Python** - Python 3.8+ with type hints

"
  +:+ schema_docs
  +:+ method_docs
  +:+ tpl_tilde "## API Reference

### "
  +:+ class_name
  +:+ tpl_tilde "

#### Connection Methods
- `connect(auto_reconnect=False)` - Connect to server
- `disconnect()` - Disconnect from server  
- `is_connected()` - Check connection status
- `wait_for_disconnect()` - Block until disconnected

#### Messaging Methods
- `send_message(data)` - Send structured message
- `send_raw_message(message)` - Send raw string message
- `register_message_handler(type, handler)` - Register message handler
- `register_error_handler(handler)` - Register error handler

## Development

### Code Quality

```bash
# Format code
poetry run black .
poetry run isort .

# Lint code  
poetry run flake8 .

# Run tests (if available)
poetry run pytest
```

### Example Usage

```python
import time
from client import "
  +:+ class_name
  +:+ tpl_tilde "

def main():
    client = "
  +:+ class_name
  +:+ tpl_tilde "()
    
    # Register handlers
    def handle_message(data):
        print(f~📨 {data}~)
    
    def handle_error(error):
        print(f~❌ {error}~)
    
    # Setup client
    client.register_error_handler(handle_error)
    
    # Connect with auto-reconnection
    if client.connect(auto_reconnect=True):
        try:
            # Keep running
            while client.is_connected():
                time.sleep(1)
        except KeyboardInterrupt:
            print(~Shutting down...~)
        finally:
            client.disconnect()

if __name__ == ~__main__~:
    main()
```

## Generated from AsyncAPI

This client was automatically generated from an AsyncAPI specification.
To regenerate with updates, run the generator again with your updated spec.
".

(** [schema.get('type') == 'string' and 'enum' in schema] *)
Definition has_enum_key (sch : schema) : bool :=
  match s_type sch, s_enum sch with
  | Some t, Some _ => String.eqb t "string"
  | _, _ => false
  end.

(** The line of the README for one schema, or nothing *)
Definition readme_schema_step (schema_docs : string) (entry : string * schema) : string :=
  let '(schema_name, sch) := entry in
  let class_name := to_pascal_case schema_name in
  if has_enum_key sch then
    let enum_values :=
      join_with ", " (map (fun v => "`" +:+ v +:+ "`") (get (s_enum sch) [])) in
    schema_docs +:+ "- **" +:+ class_name +:+ "** (Enum): " +:+ enum_values +:+ newline
  else if is_object_schema sch then
    let properties := get (s_properties sch) [] in
    match properties with
    | [] => schema_docs
    | _ :: _ =>
        let prop_list := join_with ", " (map fst properties) in
        schema_docs +:+ "- **" +:+ class_name +:+ "** (Class): " +:+ prop_list +:+ newline
    end
  else schema_docs.

Definition readme_schema_docs (schemas : list (string * schema)) : string :=
  match schemas with
  | [] => EmptyString
  | _ :: _ =>
      let schema_docs := "### Generated Data Types" +:+ newline +:+ newline in
      let schema_docs := fold_left readme_schema_step schemas schema_docs in
      schema_docs +:+ newline
  end.

Definition readme_method_docs (channels : list (string * channel)) : string :=
  match channels with
  | [] => EmptyString
  | _ :: _ =>
      let method_docs := "### Available Methods" +:+ newline +:+ newline in
      let method_docs :=
        fold_left
          (fun method_docs '(channel_name, chan) =>
             fold_left
               (fun method_docs '(message_name, spec) =>
                  let method_name := PyStr.lower (to_snake_case message_name) in
                  let method_docs :=
                    method_docs +:+ "- `send_" +:+ method_name +:+ "(payload)` - Send "
                    +:+ message_name +:+ newline in
                  method_docs +:+ "- `on_" +:+ method_name +:+ "(handler)` - Handle "
                  +:+ message_name +:+ newline)
               (get (messages chan) []) method_docs)
          channels method_docs in
      method_docs +:+ newline
  end.

Definition generate_readme (title description : string)
    (schemas : list (string * schema)) (channels : list (string * channel)) : string :=
  readme_text title description (client_class_name title)
    (readme_schema_docs schemas) (readme_method_docs channels).

(** ** Error handlers of the emitted client *)

Module ErrorHandlers.
Import Runtime.

(** What [_on_error] does, in order: the line it prints for the error, the
    calls of the registered handlers, and the line for a handler that
    raised *)
Inductive step : Type :=
| ReportError (error : exn)
| Invoke (h : handler) (error : exn)
| ReportHandlerFailure (e : exn).






End ErrorHandlers.

(** ** The message buffer of the test library *)

Module Adapter.
Import Runtime.

(** [msg.get("type") == message_type], for a string [message_type]; only a
    dict has [get] *)
Definition has_type (message_type : string) (msg : json) : outcome bool :=
  match msg with
  | JObject fields =>
      Returned match assoc "type" fields with
               | Some (JString s) => String.eqb s message_type
               | _ => false
               end
  | _ => Raised AttributeError
  end.

(** [get_messages_by_type]: the list comprehension over
    [self.received_messages] *)
Fixpoint get_messages_by_type (message_type : string) (received_messages : list json)
    : outcome (list json) :=
  match received_messages with
  | [] => Returned []
  | msg :: rest =>
      match has_type message_type msg with
      | Raised e => Raised e
      | Returned keep =>
          match get_messages_by_type message_type rest with
          | Raised e => Raised e
          | Returned l => Returned (if keep then msg :: l else l)
          end
      end
  end.

(** [get_message_count] *)
Definition get_message_count (received_messages : list json) : nat :=
  List.length received_messages.

(** One pass of the loop of [_wait_for_message_async]:
    [for i, msg in enumerate(self.received_messages)], which at the first
    message of the type does [self.received_messages.pop(i)] and returns
    it.  [seen] holds the messages before index [i].  The result is the
    message found, if any, and the buffer after the pass. *)
Fixpoint take_first (message_type : string) (seen rest : list json)
    : outcome (option json * list json) :=
  match rest with
  | [] => Returned (None, seen)
  | msg :: rest' =>
      match has_type message_type msg with
      | Raised e => Raised e
      | Returned true => Returned (Some msg, seen ++ rest')
      | Returned false => take_first message_type (seen ++ [msg]) rest'
      end
  end.

End Adapter.

(** ** Sample data *)

Module Sample.
Import Runtime.

(** A specification with an enum, a record that refers to it, and one
    message *)
Definition schemas : list (string * schema) :=
  [("gpio-status",
    Schema None (Some "string") (Some ["high"; "low"]) None (Some "Pin level")
      None None None);
   ("GpioPin",
    Schema None (Some "object") None None None None
      (Some [("label", Schema None (Some "string") None None (Some "Pin label")
                         None None None);
             ("id", Schema None (Some "integer") None None None None None None);
             ("status", ref_to "#/components/schemas/gpio-status");
             ("tags", Schema None (Some "array") None None None
                        (Some (Schema None (Some "string") None None None None None None))
                        None None)])
      (Some ["status"; "id"]))].

Definition channels : list (string * channel) :=
  [("gpio", Channel (Some [("GpioMessage", MessageSpec None)]))].

(** The record of the specification's example: [required: ["a"]],
    [properties: {a: string, b: integer}] *)
Definition a_b_record : schema :=
  Schema None (Some "object") None None None None
    (Some [("a", Schema None (Some "string") None None None None None None);
           ("b", Schema None (Some "integer") None None None None None None)])
    (Some ["a"]).

(** The frame [{"type": "GpioMessage", "payload": {"status": "high"}}] *)
Definition frame_text : string :=
  tpl "{`type`: `GpioMessage`, `payload`: {`status`: `high`}}".

Definition frame : json :=
  JObject [("type", JString "GpioMessage");
           ("payload", JObject [("status", JString "high")])].

(** The frame [{"type": []}] *)
Definition list_typed_text : string := tpl "{`type`: []}".

(** The frame [{"type": "\ud800"}]: the escape decodes to one lone
    surrogate *)
Definition surrogate_typed_text : string := tpl "{`type`: `\ud800`}".

Definition lone_surrogate : string :=
  String "237" (String "160" (String "128" EmptyString)).

(** Libraries and network of the sample runs: the decoder knows the sample
    frames and the empty object, handler 1 always raises, every write
    succeeds, every handshake completes within the wait. *)
Definition environment : env :=
  {| pyobj := json;
     json_loads := fun text =>
       if String.eqb text frame_text then Some frame
       else if String.eqb text list_typed_text then Some (JObject [("type", JArray [])])
       else if String.eqb text surrogate_typed_text
            then Some (JObject [("type", JString lone_surrogate)])
       else if String.eqb text "{}" then Some (JObject [])
       else None;
     json_dumps := fun _ => inr "{}";
     run_handler := fun _ h _ => if Nat.eqb h 1 then Some (Failure 1) else None;
     transport_write := fun _ _ _ => None;
     handshake := fun _ _ => true |}.

Definition fresh_client : world :=
  {| self := __init__ EmptyString; log := []; created := 0 |}.

End Sample.

(** * Properties *)

(** ** Strings *)

Module PyStrFacts.
Import PyStr.

Ltac by_cases_on_char c :=
  destruct c as [[] [] [] [] [] [] [] []]; try reflexivity; try discriminate.

Lemma sapp_cons (c : ascii) (r s : string) : String c r +:+ s = String c (r +:+ s).
Proof. reflexivity. Qed.

Lemma sapp_nil_r (s : string) : s +:+ EmptyString = s.
Proof. induction s as [|c r IH]; [reflexivity | now rewrite sapp_cons, IH]. Qed.

Lemma sapp_assoc (a b c : string) : (a +:+ b) +:+ c = a +:+ (b +:+ c).
Proof. induction a as [|x r IH]; [reflexivity | now rewrite !sapp_cons, IH]. Qed.

Lemma join_app (l1 l2 : list string) : join (l1 ++ l2) = join l1 +:+ join l2.
Proof.
  induction l1 as [|w ws IH]; simpl; [reflexivity|].
  now rewrite IH, sapp_assoc.
Qed.

Lemma smap_id (f : ascii -> ascii) (s : string) :
  sforall (fun c => Ascii.eqb (f c) c) s = true -> smap f s = s.
Proof.
  induction s as [|c r IH]; simpl; [reflexivity|].
  intros [Hc Hr]%andb_true_iff.
  apply Ascii.eqb_eq in Hc. now rewrite Hc, IH.
Qed.

Lemma sforall_impl (p q : ascii -> bool) (s : string) :
  (forall c, p c = true -> q c = true) ->
  sforall p s = true -> sforall q s = true.
Proof.
  intros Hpq. induction s as [|c r IH]; simpl; [reflexivity|].
  intros [Hc Hr]%andb_true_iff. now rewrite (Hpq _ Hc), IH.
Qed.

Lemma sforall_remove (p : ascii -> bool) (old : ascii) (s : string) :
  sforall p s = true -> sforall p (remove old s) = true.
Proof.
  induction s as [|c r IH]; simpl; [reflexivity|].
  intros [Hc Hr]%andb_true_iff.
  destruct (Ascii.eqb c old); simpl; [|rewrite Hc]; auto.
Qed.

Lemma remove_absent (old : ascii) (s : string) :
  sforall (fun c => negb (Ascii.eqb c old)) (remove old s) = true.
Proof.
  induction s as [|c r IH]; simpl; [reflexivity|].
  destruct (Ascii.eqb c old) eqn:Hc; simpl; [|rewrite Hc]; auto.
Qed.

Lemma replace_absent (old new : ascii) (s : string) :
  sforall (fun c => negb (Ascii.eqb c old)) s = true -> replace old new s = s.
Proof.
  intros H. apply smap_id. revert H. apply sforall_impl.
  intros c Hc. destruct (Ascii.eqb c old); [discriminate | apply Ascii.eqb_refl].
Qed.

Lemma split_absent (sep : ascii) (s : string) :
  sforall (fun c => negb (Ascii.eqb c sep)) s = true -> split sep s = [s].
Proof.
  induction s as [|c r IH]; simpl; [reflexivity|].
  intros [Hc Hr]%andb_true_iff.
  destruct (Ascii.eqb c sep); [discriminate|]. now rewrite (IH Hr).
Qed.

Lemma split_nonempty (sep : ascii) (s : string) : split sep s <> [].
Proof.
  destruct s as [|c r]; simpl; [discriminate|].
  destruct (Ascii.eqb c sep); [discriminate|].
  destruct (split sep r); discriminate.
Qed.

Lemma lower_char_underscore (c : ascii) :
  Ascii.eqb (lower_char c) "_" = Ascii.eqb c "_".
Proof. by_cases_on_char c. Qed.

Lemma upper_lower_char (c : ascii) : upper_char (lower_char c) = upper_char c.
Proof. by_cases_on_char c. Qed.

Lemma lower_lower_char (c : ascii) : lower_char (lower_char c) = lower_char c.
Proof. by_cases_on_char c. Qed.

Lemma lower_char_not_upper (c : ascii) : is_upper (lower_char c) = false.
Proof. by_cases_on_char c. Qed.

Lemma lower_char_fixed (c : ascii) : is_upper c = false -> lower_char c = c.
Proof. unfold lower_char. now intros ->. Qed.

Lemma lower_idem (s : string) : lower (lower s) = lower s.
Proof.
  unfold lower. induction s as [|c r IH]; simpl; [reflexivity|].
  now rewrite lower_lower_char, IH.
Qed.

Lemma lower_not_upper (s : string) :
  sforall (fun c => negb (is_upper c)) (lower s) = true.
Proof.
  unfold lower. induction s as [|c r IH]; simpl; [reflexivity|].
  now rewrite lower_char_not_upper, IH.
Qed.

Lemma lower_fixed (s : string) :
  sforall (fun c => negb (is_upper c)) s = true -> lower s = s.
Proof.
  intros H. apply smap_id. revert H. apply sforall_impl.
  intros c Hc. apply negb_true_iff in Hc.
  rewrite (lower_char_fixed _ Hc). apply Ascii.eqb_refl.
Qed.

Lemma capitalize_lower (w : string) : capitalize (lower w) = capitalize w.
Proof.
  destruct w as [|c r]; [reflexivity|].
  change (lower (String c r)) with (String (lower_char c) (lower r)).
  unfold capitalize. now rewrite upper_lower_char, lower_idem.
Qed.

Lemma split_lower (s : string) : split "_" (lower s) = map lower (split "_" s).
Proof.
  induction s as [|c r IH]; [reflexivity|].
  change (lower (String c r)) with (String (lower_char c) (lower r)).
  cbn [split]. rewrite lower_char_underscore, IH.
  destruct (Ascii.eqb c "_"); [reflexivity|].
  destruct (split "_" r) eqn:Hs; [now destruct (split_nonempty _ _ Hs)|].
  reflexivity.
Qed.


Lemma re_sub_word_eq (in_run : bool) (c : ascii) (t : string) :
  re_sub_word in_run (String c t) =
    if in_run && is_lower c then String c (re_sub_word true t)
    else
      match t with
      | String u (String l rest) =>
          if negb (Ascii.eqb c "010") && is_upper u && is_lower l
          then String c (String "_" (String u (String l (re_sub_word true rest))))
          else String c (re_sub_word false t)
      | _ => String c (re_sub_word false t)
      end.
Proof. destruct t as [|u [|l rest]]; reflexivity. Qed.

Lemma re_sub_word_no_upper (s : string) (in_run : bool) :
  sforall (fun c => negb (is_upper c)) s = true -> re_sub_word in_run s = s.
Proof.
  revert in_run. induction s as [|c t IH]; intros in_run; [reflexivity|].
  rewrite re_sub_word_eq. cbn [sforall].
  intros [Hc Ht]%andb_true_iff.
  destruct (in_run && is_lower c); [now rewrite (IH true Ht)|].
  destruct t as [|u [|l rest]]; try now rewrite (IH false Ht).
  assert (Hu : is_upper u = false).
  { cbn [sforall] in Ht. apply andb_true_iff in Ht as [Hu _]. now apply negb_true_iff in Hu. }
  rewrite Hu, andb_false_r. cbn [andb]. now rewrite (IH false Ht).
Qed.

Lemma re_sub_hump_eq (a : ascii) (t : string) :
  re_sub_hump (String a t) =
    match t with
    | String b rest =>
        if (is_lower a || is_digit a) && is_upper b
        then String a (String "_" (String b (re_sub_hump rest)))
        else String a (re_sub_hump t)
    | EmptyString => String a EmptyString
    end.
Proof. destruct t; reflexivity. Qed.

Lemma re_sub_hump_no_upper (s : string) :
  sforall (fun c => negb (is_upper c)) s = true -> re_sub_hump s = s.
Proof.
  induction s as [|a t IH]; [reflexivity|].
  rewrite re_sub_hump_eq. cbn [sforall].
  intros [Ha Ht]%andb_true_iff.
  destruct t as [|b rest]; [reflexivity|].
  assert (Hb : is_upper b = false).
  { cbn [sforall] in Ht. apply andb_true_iff in Ht as [Hb _]. now apply negb_true_iff in Hb. }
  rewrite Hb, andb_false_r. now rewrite (IH Ht).
Qed.
End PyStrFacts.

(** ** Name normalisation *)

Section Naming.
Import PyStr PyStrFacts.

Lemma to_snake_case_no_upper (x : string) :
  no_upper x = true -> to_snake_case x = lower x.
Proof.
  intros H. unfold to_snake_case.
  now rewrite (re_sub_word_no_upper _ _ H), (re_sub_hump_no_upper _ H).
Qed.

Lemma to_pascal_case_no_separator (x : string) :
  no_char "-" x = true -> no_char " " x = true ->
  to_pascal_case x = word_capitalized x.
Proof.
  intros Hd Hs. unfold to_pascal_case, word_capitalized.
  now rewrite (replace_absent _ _ _ Hd), (replace_absent _ _ _ Hs).
Qed.

Lemma word_capitalized_lower (x : string) :
  word_capitalized (lower x) = word_capitalized x.
Proof.
  unfold word_capitalized. rewrite split_lower, map_map.
  f_equal. apply map_ext. intros w. apply capitalize_lower.
Qed.

Lemma to_pascal_case_one_segment (s : string) :
  no_char "-" s = true -> no_char "_" s = true -> no_char " " s = true ->
  to_pascal_case s = capitalize s.
Proof.
  intros Hd Hu Hs. rewrite (to_pascal_case_no_separator _ Hd Hs).
  unfold word_capitalized. rewrite (split_absent _ _ Hu). simpl.
  apply sapp_nil_r.
Qed.

End Naming.

(** C6, as stated, fails: [to_pascal_case] lower-cases everything after the
    first letter of a segment, so the hump of [GpioMessage] is lost, while
    the snake form keeps it as a word boundary. *)
Lemma conversions_inconsistent_GpioMessage :
  to_pascal_case "GpioMessage" = "Gpiomessage"
  /\ word_capitalized (to_snake_case "GpioMessage") = "GpioMessage"
  /\ ~ conversions_consistent "GpioMessage".
Proof.
  split; [reflexivity|]. split; [reflexivity|].
  intros [_ H]. vm_compute in H. discriminate H.
Qed.

(** C6, amended: kebab is snake with [_] replaced by [-] for every input;
    Pascal is the word-capitalized snake form for every ASCII input that
    has no [-] and no space and into which [to_snake_case] puts no
    separator (its result is the input lower-cased). *)
Theorem conversions_consistent_amended (x : string) :
  to_kebab_case x = PyStr.replace "_" "-" (to_snake_case x)
  /\ (is_ascii x = true ->
      no_char "-" x = true -> no_char " " x = true ->
      to_snake_case x = PyStr.lower x ->
      to_pascal_case x = word_capitalized (to_snake_case x)).
Proof.
  split; [reflexivity|].
  intros _ Hd Hs Hsnake.
  rewrite Hsnake, word_capitalized_lower.
  now apply to_pascal_case_no_separator.
Qed.

(** In particular the three conversions agree on every ASCII input without
    upper-case letters, [-] or space. *)
Lemma conversions_consistent_lowercase (x : string) :
  is_ascii x = true ->
  no_upper x = true -> no_char "-" x = true -> no_char " " x = true ->
  conversions_consistent x.
Proof.
  intros _ Hu Hd Hs. split; [reflexivity|].
  rewrite (to_snake_case_no_upper _ Hu), word_capitalized_lower.
  now apply to_pascal_case_no_separator.
Qed.

Lemma conversions_consistent_amended_witness :
  (is_ascii "gpio_status_2" = true
   /\ no_char "-" "gpio_status_2" = true
   /\ no_char " " "gpio_status_2" = true
   /\ to_snake_case "gpio_status_2" = PyStr.lower "gpio_status_2")
  /\ to_pascal_case "gpio_status_2" = word_capitalized (to_snake_case "gpio_status_2").
Proof.
  split; [repeat split|].
  exact (proj2 (conversions_consistent_amended "gpio_status_2")
           eq_refl eq_refl eq_refl eq_refl).
Defined.

(** C10, as stated, fails outside ASCII: the title case of U+0149 is two
    characters, the second of them [N], so the class name of the title
    [U+0149 abc] has a capital after its first character. *)
Lemma client_class_name_U0149 :
  let title := String "197" (String "137" "abc") in
  client_class_name_special title
    = String "202" (String "188" "NabcClient")
  /\ ~ single_capital title.
Proof.
  split; [reflexivity|].
  intros H. destruct (H eq_refl eq_refl) as (segment & _ & -> & Hrest).
  vm_compute in Hrest. discriminate Hrest.
Qed.

(** On ASCII text the two capitalizations are the same function. *)
Lemma capitalize_special_ascii (s : string) :
  is_ascii s = true -> capitalize_special s = PyStr.capitalize s.
Proof.
  intros H. destruct s as [|c [|d r]]; [reflexivity| |];
    unfold capitalize_special, title_case_special;
    destruct c as [[] [] [] [] [] [] [] []]; try reflexivity.
  vm_compute in H. discriminate H.
Qed.

Lemma to_pascal_case_special_one_segment (s : string) :
  no_char "-" s = true -> no_char "_" s = true -> no_char " " s = true ->
  to_pascal_case_special s = capitalize_special s.
Proof.
  intros Hd Hu Hs. unfold to_pascal_case_special.
  rewrite (PyStrFacts.replace_absent "-" "_" s Hd).
  rewrite (PyStrFacts.replace_absent " " "_" s Hs).
  rewrite (PyStrFacts.split_absent _ _ Hu). cbn [map PyStr.join].
  apply PyStrFacts.sapp_nil_r.
Qed.

(** C10, amended: the class name is [to_pascal_case] of the title with its
    spaces deleted, followed by [Client]; for a title without [-] and [_]
    that is one segment, capitalized as a whole, and for an ASCII title
    that means: its first character upper-cased and no upper-case letter
    after it. *)
Theorem client_class_name_single_segment (title : string) :
  no_char "-" title = true -> no_char "_" title = true ->
  let segment := PyStr.remove " " title in
  (client_class_name title = PyStr.capitalize segment +:+ "Client"
   /\ client_class_name_special title = capitalize_special segment +:+ "Client")
  /\ (is_ascii title = true ->
      capitalize_special segment = PyStr.capitalize segment
      /\ match PyStr.capitalize segment with
         | EmptyString => True
         | String first rest =>
             first = PyStr.upper_char first /\ no_upper rest = true
         end).
Proof.
  intros Hd Hu segment. subst segment. split; [split|].
  - unfold client_class_name. f_equal.
    apply to_pascal_case_one_segment.
    + now apply PyStrFacts.sforall_remove.
    + now apply PyStrFacts.sforall_remove.
    + apply PyStrFacts.remove_absent.
  - unfold client_class_name_special. f_equal.
    apply to_pascal_case_special_one_segment.
    + now apply PyStrFacts.sforall_remove.
    + now apply PyStrFacts.sforall_remove.
    + apply PyStrFacts.remove_absent.
  - intros Hascii. split.
    + apply capitalize_special_ascii. now apply PyStrFacts.sforall_remove.
    + destruct (PyStr.remove " " title) as [|c r]; [exact I|].
      split; [|apply PyStrFacts.lower_not_upper].
      cbn [PyStr.capitalize]. PyStrFacts.by_cases_on_char c.
Qed.

Lemma client_class_name_Phobos :
  (no_char "-" "Phobos GPIO interface API" = true
   /\ no_char "_" "Phobos GPIO interface API" = true
   /\ is_ascii "Phobos GPIO interface API" = true)
  /\ client_class_name "Phobos GPIO interface API" = "PhobosgpiointerfaceapiClient"
  /\ client_class_name "Phobos GPIO interface API" <> "PhobosGpioInterfaceApiClient"
  /\ no_upper "hobosgpiointerfaceapi" = true.
Proof.
  split; [repeat split|].
  destruct (client_class_name_single_segment "Phobos GPIO interface API"
              eq_refl eq_refl) as [[-> _] Hrest].
  split; [reflexivity|]. split; [discriminate|].
  exact (proj2 (proj2 (Hrest eq_refl))).
Defined.

(** ** Type mapping *)

Lemma get_python_type_empty (all_schemas : list (string * schema)) :
  get_python_type empty_schema all_schemas = "Any".
Proof. reflexivity. Qed.

Lemma get_python_type_ref (sch : schema) (r : string)
    (all_schemas : list (string * schema)) :
  s_ref sch = Some r ->
  get_python_type sch all_schemas = to_pascal_case (PyStr.last_segment (PyStr.split "/" r)).
Proof. destruct sch as [ref ? ? ? ? ? ? ?]. simpl. now intros ->. Qed.

(** C2, as stated, fails: the schema table is never consulted, and the name
    of the missing schema is what comes out. *)
Lemma dangling_ref_keeps_name :
  get_python_type (ref_to "#/components/schemas/Missing") [] = "Missing"
  /\ ~ dangling_degrades "#/components/schemas/Missing" [].
Proof.
  split; [reflexivity|].
  intros H. specialize (H eq_refl). vm_compute in H. discriminate H.
Qed.

(** C2, amended: a property with a [$ref] gets the Pascal-cased last path
    segment of the reference as its type, whatever the schema table holds,
    and its field line is emitted with that type like any other. *)
Theorem get_python_type_dangling_ref (sch : schema) (r prop_name : string)
    (all_schemas : list (string * schema)) :
  s_ref sch = Some r ->
  in_table (PyStr.last_segment (PyStr.split "/" r)) all_schemas = false ->
  let name := to_pascal_case (PyStr.last_segment (PyStr.split "/" r)) in
  get_python_type sch all_schemas = name
  /\ get_python_type sch all_schemas = get_python_type sch []
  /\ required_field prop_name sch all_schemas =
       ("    " +:+ prop_name +:+ ": " +:+ name)
       +:+ (if String.eqb (get (s_description sch) "") "" then ""
            else "  # " +:+ get (s_description sch) "")
       +:+ newline
  /\ optional_field prop_name sch all_schemas =
       ("    " +:+ prop_name +:+ ": Optional[" +:+ name +:+ "] = None")
       +:+ (if String.eqb (get (s_description sch) "") "" then ""
            else "  # " +:+ get (s_description sch) "")
       +:+ newline.
Proof.
  intros Href _ name.
  pose proof (get_python_type_ref sch r all_schemas Href) as Ht.
  pose proof (get_python_type_ref sch r [] Href) as Ht0.
  fold name in Ht, Ht0.
  split; [exact Ht|]. split; [congruence|].
  unfold required_field, optional_field. rewrite Ht.
  destruct (String.eqb (get (s_description sch) "") "");
    rewrite ?PyStrFacts.sapp_nil_r, ?PyStrFacts.sapp_assoc; auto.
Qed.

Lemma get_python_type_dangling_ref_witness :
  get_python_type (ref_to "#/components/schemas/Missing")
    [("Status", Schema None (Some "string") None None None None None None)] = "Missing"
  /\ required_field "state" (ref_to "#/components/schemas/Missing")
       [("Status", Schema None (Some "string") None None None None None None)]
     = "    state: Missing" +:+ newline.
Proof.
  destruct (get_python_type_dangling_ref
              (ref_to "#/components/schemas/Missing") "#/components/schemas/Missing"
              "state"
              [("Status", Schema None (Some "string") None None None None None None)]
              eq_refl eq_refl) as (H1 & _ & H3 & _).
  split; [exact H1 | exact H3].
Defined.

(** ** Code emission *)

Section Accumulation.
Import PyStr PyStrFacts.

(** A loop whose body appends a text that depends on the item alone emits
    the items' texts in order. *)
Lemma fold_left_emit {A : Type} (step : string -> A -> string) (text : A -> string) :
  (forall code x, step code x = code +:+ text x) ->
  forall (l : list A) (code : string),
    fold_left step l code = code +:+ join (map text l).
Proof.
  intros Hstep. induction l as [|x l IH]; intros code; simpl.
  - now rewrite sapp_nil_r.
  - now rewrite IH, Hstep, sapp_assoc.
Qed.

Lemma join_filter {A : Type} (keep : A -> bool) (text : A -> string) (l : list A) :
  join (map (fun x => if keep x then text x else EmptyString) l)
  = join (map text (List.filter keep l)).
Proof.
  induction l as [|x l IH]; simpl; [reflexivity|].
  destruct (keep x); simpl; now rewrite IH.
Qed.

End Accumulation.

(** The text that the enum loop appends: one block per enum schema *)
Lemma emit_enums_text (schemas : list (string * schema)) (code : string) :
  emit_enums schemas code =
  code +:+ PyStr.join
    (map (fun '(schema_name, sch) =>
            if is_enum_schema sch then
              enum_header (to_pascal_case schema_name)
                (get (s_description sch) ("Enum for " +:+ schema_name))
              +:+ PyStr.join (map const_line (get (s_enum sch) []))
            else EmptyString)
       schemas).
Proof.
  unfold emit_enums. apply fold_left_emit.
  intros c [schema_name sch]. destruct (is_enum_schema sch).
  - rewrite (fold_left_emit _ const_line) by reflexivity.
    apply PyStrFacts.sapp_assoc.
  - now rewrite PyStrFacts.sapp_nil_r.
Qed.

Lemma const_name_rule (v : string) :
  const_name v = PyStr.smap underscore_of (PyStr.upper v).
Proof.
  unfold const_name, PyStr.replace.
  induction (PyStr.upper v) as [|c r IH]; simpl; [reflexivity|].
  rewrite IH. f_equal. PyStrFacts.by_cases_on_char c.
Qed.

(** C8: a string schema with a non-empty [enum] emits, after the class
    header, one constant line per value, in the order of the list; the
    constant's name is the value upper-cased with [-], space and [.] turned
    into [_]. *)
Theorem enum_constants (pre post : list (string * schema)) (schema_name : string)
    (sch : schema) (values : list string) (code : string) :
  s_type sch = Some "string" -> s_enum sch = Some values -> values <> [] ->
  emit_enums (pre ++ (schema_name, sch) :: post) code =
    emit_enums pre code
    +:+ enum_header (to_pascal_case schema_name)
          (get (s_description sch) ("Enum for " +:+ schema_name))
    +:+ PyStr.join
          (map (fun v => "    " +:+ PyStr.smap underscore_of (PyStr.upper v)
                         +:+ tpl " = `" +:+ v +:+ tpl "`" +:+ newline)
               values)
    +:+ emit_enums post EmptyString.
Proof.
  intros Ht He Hne.
  rewrite !emit_enums_text, map_app, PyStrFacts.join_app. simpl.
  assert (Hen : is_enum_schema sch = true).
  { unfold is_enum_schema. rewrite Ht, He. destruct values; [contradiction | reflexivity]. }
  rewrite Hen, He. cbn [get].
  assert (Hlines :
    map (fun v => "    " +:+ PyStr.smap underscore_of (PyStr.upper v)
                  +:+ tpl " = `" +:+ v +:+ tpl "`" +:+ newline) values
    = map const_line values).
  { apply map_ext. intros v. unfold const_line. now rewrite const_name_rule. }
  rewrite Hlines. now rewrite !PyStrFacts.sapp_assoc.
Qed.

Lemma enum_constants_high_low :
  emit_enums
    [("Level", Schema None (Some "string") (Some ["high"; "low"]) None None None None None)]
    EmptyString
  = enum_header "Level" "Enum for Level"
    +:+ tpl "    HIGH = `high`" +:+ newline
    +:+ tpl "    LOW = `low`" +:+ newline.
Proof.
  etransitivity.
  - refine (enum_constants [] [] "Level"
              (Schema None (Some "string") (Some ["high"; "low"]) None None None None None)
              ["high"; "low"] EmptyString eq_refl eq_refl _).
    discriminate.
  - reflexivity.
Defined.

Section DataClasses.

Variable mkset : list string -> list string.
Hypothesis mkset_members : set_constructor mkset.

Lemma set_in_mkset (l : list string) (x : string) :
  set_in x (mkset l) = set_in x l.
Proof.
  unfold set_in. apply eq_true_iff_eq. rewrite !existsb_exists.
  split; intros (y & Hy & Heq); apply String.eqb_eq in Heq; subst y;
    exists x; (split; [now apply mkset_members | apply String.eqb_refl]).
Qed.

(** The text that the body of the data-class loop appends *)
Lemma emit_dataclass_text (schemas : list (string * schema)) (schema_name : string)
    (sch : schema) (code : string) :
  emit_dataclass mkset schemas schema_name sch code =
    code
    +:+ dataclass_header (to_pascal_case schema_name)
          (get (s_description sch) ("Data class for " +:+ schema_name))
    +:+ PyStr.join
          (map (fun p => required_field (fst p) (snd p) schemas)
               (List.filter (is_required sch) (get (s_properties sch) [])))
    +:+ PyStr.join
          (map (fun p => optional_field (fst p) (snd p) schemas)
               (List.filter (fun p => negb (is_required sch p)) (get (s_properties sch) []))).
Proof.
  unfold emit_dataclass.
  rewrite (fold_left_emit _
             (fun p => if negb (is_required sch p)
                       then optional_field (fst p) (snd p) schemas else EmptyString)).
  2:{ intros c [prop_name prop_schema]. unfold is_required. cbn [fst snd].
      rewrite set_in_mkset.
      destruct (set_in prop_name (get (s_required sch) [])); cbn [negb];
        [now rewrite PyStrFacts.sapp_nil_r | reflexivity]. }
  rewrite (fold_left_emit _
             (fun p => if is_required sch p
                       then required_field (fst p) (snd p) schemas else EmptyString)).
  2:{ intros c [prop_name prop_schema]. unfold is_required. cbn [fst snd].
      rewrite set_in_mkset.
      destruct (set_in prop_name (get (s_required sch) []));
        [reflexivity | now rewrite PyStrFacts.sapp_nil_r]. }
  rewrite (join_filter (is_required sch)).
  rewrite (join_filter (fun p => negb (is_required sch p))).
  now rewrite !PyStrFacts.sapp_assoc.
Qed.

(** The body of the data-class loop appends the header, the lines of the
    properties named in [required], then the lines of the others. *)
Lemma emit_dataclass_required_first (schemas : list (string * schema))
    (schema_name : string) (sch : schema) (code : string) :
  let properties := get (s_properties sch) [] in
  let required_first :=
    List.filter (is_required sch) properties
    ++ List.filter (fun p => negb (is_required sch p)) properties in
  emit_dataclass mkset schemas schema_name sch code =
    code
    +:+ dataclass_header (to_pascal_case schema_name)
          (get (s_description sch) ("Data class for " +:+ schema_name))
    +:+ PyStr.join
          (map (fun p => if is_required sch p
                         then required_field (fst p) (snd p) schemas
                         else optional_field (fst p) (snd p) schemas)
               required_first).
Proof.
  intros properties required_first. subst required_first properties.
  rewrite emit_dataclass_text, map_app, PyStrFacts.join_app.
  do 2 f_equal. f_equal.
  - f_equal. apply map_ext_in. intros p Hp.
    apply List.filter_In in Hp as [_ ->]. reflexivity.
  - f_equal. apply map_ext_in. intros p Hp.
    apply List.filter_In in Hp as [_ Hp]. apply negb_true_iff in Hp.
    now rewrite Hp.
Qed.

End DataClasses.

Lemma fold_left_pointwise {A B : Type} (f g : A -> B -> A) (l : list B) (a : A) :
  (forall a b, f a b = g a b) -> fold_left f l a = fold_left g l a.
Proof.
  intros H. revert a. induction l as [|b l IH]; intros a; simpl; [reflexivity|].
  now rewrite H, IH.
Qed.

(** Required fields move to the front, each group keeping the order of
    [properties]. *)
Example emit_dataclass_GpioPin :
  emit_dataclass (fun l => l) Sample.schemas "GpioPin"
    (Schema None (Some "object") None None None None
       (s_properties (snd (nth 1 Sample.schemas ("", empty_schema))))
       (Some ["status"; "id"]))
    EmptyString
  = dataclass_header "Gpiopin" "Data class for GpioPin"
    +:+ "    id: int" +:+ newline
    +:+ "    status: GpioStatus" +:+ newline
    +:+ "    label: Optional[str] = None  # Pin label" +:+ newline
    +:+ "    tags: Optional[List[str]] = None" +:+ newline.
Proof. reflexivity. Qed.

(** C1: the emitted text does not depend on anything but the parsed
    specification.  The one ingredient of a run that is not fixed by the
    specification is the order inside the sets that [set(...)] builds; two
    runs that differ in it emit the same text. *)
Theorem generate_client_code_deterministic (mkset1 mkset2 : list string -> list string)
    (title description server_url : string)
    (schemas : list (string * schema)) (channels : list (string * channel)) :
  set_constructor mkset1 -> set_constructor mkset2 ->
  generate_client_code mkset1 title description server_url schemas channels
  = generate_client_code mkset2 title description server_url schemas channels.
Proof.
  intros H1 H2. unfold generate_client_code.
  assert (Hdc : forall code,
             emit_dataclasses mkset1 schemas code = emit_dataclasses mkset2 schemas code).
  { intros code. unfold emit_dataclasses. apply fold_left_pointwise.
    intros c [schema_name sch]. destruct (is_object_schema sch); [|reflexivity].
    now rewrite (emit_dataclass_text mkset1 H1), (emit_dataclass_text mkset2 H2). }
  now rewrite Hdc.
Qed.

Lemma generate_client_code_deterministic_witness :
  (set_constructor (fun l => l) /\ set_constructor (fun l => rev l))
  /\ generate_client_code (fun l => l) "Phobos GPIO interface API" "Controls pins."
       "wss://127.0.0.1" Sample.schemas Sample.channels
     = generate_client_code (fun l => rev l) "Phobos GPIO interface API" "Controls pins."
         "wss://127.0.0.1" Sample.schemas Sample.channels.
Proof.
  assert (Hid : set_constructor (fun l => l)) by (intros l x; reflexivity).
  assert (Hrev : set_constructor (fun l => rev l))
    by (intros l x; symmetry; apply in_rev).
  split; [split; assumption|].
  exact (generate_client_code_deterministic _ _ _ _ _ _ _ Hid Hrev).
Defined.

(** ** The emitted client at run time *)

Module RuntimeFacts.
Import Runtime.
Local Open Scope prog_scope.

Lemma calls_app (l1 l2 : list event) : calls (l1 ++ l2) = calls l1 ++ calls l2.
Proof.
  induction l1 as [|ev l1 IH]; simpl; [reflexivity|].
  destruct ev; simpl; now rewrite IH.
Qed.


Lemma creations_app (l1 l2 : list event) :
  creations (l1 ++ l2) = creations l1 ++ creations l2.
Proof.
  induction l1 as [|ev l1 IH]; simpl; [reflexivity|].
  destruct ev; simpl; now rewrite IH.
Qed.

(** *** Sending *)


(** *** Registration *)





(** *** Dispatch *)

Section Dispatch.

Variable E : env.

Lemma dispatch_run (hs : list handler) (data : json) (w : world) :
  for_each hs
    (fun h => try_except (call E h data) Exception (fun e => print (HandlerError e))) w
  = (Returned tt,
     {| self := self w; log := log w ++ dispatch_log E (log w) hs data;
        created := created w |}).
Proof.
  revert w. induction hs as [|h hs IH]; intros [c l n]; simpl.
  - now rewrite app_nil_r.
  - unfold bind at 1. unfold try_except, call, history, bind, emit, print, emit. simpl.
    destruct (run_handler E l h data) as [e|]; simpl.
    + rewrite IH. simpl. now rewrite <- !app_assoc.
    + rewrite IH. simpl. now rewrite <- !app_assoc.
Qed.

Lemma calls_dispatch_log (past : list event) (hs : list handler) (data : json) :
  calls (dispatch_log E past hs data) = map (fun h => (h, data)) hs.
Proof.
  revert past. induction hs as [|h hs IH]; intros past; simpl; [reflexivity|].
  f_equal. destruct (run_handler E past h data); simpl; now rewrite ?IH.
Qed.

(** A handler's error is printed right after its call and before any later
    call. *)
Lemma dispatch_log_reports (past : list event) (h : handler) (hs : list handler)
    (data : json) (e : exn) :
  run_handler E past h data = Some e ->
  dispatch_log E past (h :: hs) data =
    Call h data :: Print (HandlerError e)
    :: dispatch_log E (past ++ [Call h data; Print (HandlerError e)]) hs data.
Proof. intros H. simpl. now rewrite H. Qed.

Lemma on_message_registered (message : string) (fields : list (string * json))
    (s : string) (hs : list handler) (w : world) :
  json_loads E message = Some (JObject fields) ->
  get (assoc "type" fields) (JString "unknown") = JString s ->
  message_handlers (self w) !! s = Some hs ->
  _on_message E message w =
    (Returned tt,
     {| self := self w;
        log := log w ++ dispatch_log E (log w) hs (JObject fields);
        created := created w |}).
Proof.
  intros Hload Htype Hreg. unfold _on_message. unfold try_except at 1.
  rewrite Hload. unfold bind at 1. unfold ret at 1.
  unfold bind at 1. unfold dict_get. rewrite Htype. unfold ret at 1.
  unfold bind at 1. unfold read at 1.
  unfold bind at 1. unfold dict_contains. rewrite Hreg.
  rewrite bool_decide_eq_true_2 by eauto. unfold ret at 1.
  unfold dict_item. rewrite Hreg. cbn [get].
  now rewrite dispatch_run.
Qed.

Lemma on_message_unregistered (message : string) (fields : list (string * json))
    (w : world) :
  json_loads E message = Some (JObject fields) ->
  let d := get (assoc "type" fields) (JString "unknown") in
  hashable d = true ->
  printable d = true ->
  (forall s, d = JString s -> message_handlers (self w) !! s = None) ->
  _on_message E message w =
    (Returned tt,
     {| self := self w; log := log w ++ [Print (NoHandler d)]; created := created w |}).
Proof.
  intros Hload d Hhash Hprint Hreg. unfold _on_message, try_except.
  rewrite Hload. unfold bind at 1. unfold ret at 1.
  unfold bind at 1. unfold dict_get. fold d. unfold ret at 1.
  unfold bind at 1. unfold read at 1.
  unfold bind at 1. unfold dict_contains.
  destruct d as [| | |s| |] eqn:Hd; try discriminate Hhash; try reflexivity.
  rewrite (Hreg s eq_refl).
  rewrite bool_decide_eq_false_2 by (intros [? ?]; discriminate).
  unfold ret at 1. unfold print_value. now rewrite Hprint.
Qed.

(** The no-handler line holds the discriminator.  Where its text cannot be
    written, [print] raises, nothing is printed, and the error leaves the
    callback: it is not a [JSONDecodeError]. *)
Lemma on_message_unprintable (message : string) (fields : list (string * json))
    (w : world) :
  json_loads E message = Some (JObject fields) ->
  let d := get (assoc "type" fields) (JString "unknown") in
  hashable d = true ->
  printable d = false ->
  (forall s, d = JString s -> message_handlers (self w) !! s = None) ->
  _on_message E message w = (Raised UnicodeEncodeError, w).
Proof.
  intros Hload d Hhash Hprint Hreg. unfold _on_message, try_except.
  rewrite Hload. unfold bind at 1. unfold ret at 1.
  unfold bind at 1. unfold dict_get. fold d. unfold ret at 1.
  unfold bind at 1. unfold read at 1.
  unfold bind at 1. unfold dict_contains.
  destruct d as [| | |s| |] eqn:Hd; try discriminate Hhash; try discriminate Hprint.
  rewrite (Hreg s eq_refl).
  rewrite bool_decide_eq_false_2 by (intros [? ?]; discriminate).
  unfold ret at 1. unfold print_value. now rewrite Hprint.
Qed.

(** Outside these two cases the callback raises: a frame that is not an
    object has no [get], and a list or dict under [type] cannot be looked
    up in the registry.  Neither error is a [JSONDecodeError]. *)
Lemma on_message_not_an_object (message : string) (v : json) (w : world) :
  json_loads E message = Some v ->
  (forall fields, v <> JObject fields) ->
  _on_message E message w = (Raised AttributeError, w).
Proof.
  intros Hload Hv. unfold _on_message, try_except. rewrite Hload.
  destruct v; try reflexivity. now destruct (Hv fields).
Qed.

Lemma on_message_unhashable (message : string) (fields : list (string * json))
    (w : world) :
  json_loads E message = Some (JObject fields) ->
  hashable (get (assoc "type" fields) (JString "unknown")) = false ->
  _on_message E message w = (Raised TypeError, w).
Proof.
  intros Hload Hhash. unfold _on_message, try_except.
  rewrite Hload. unfold bind at 1. unfold ret at 1.
  unfold bind at 1. unfold dict_get.
  destruct (get (assoc "type" fields) (JString "unknown"));
    try discriminate Hhash; reflexivity.
Qed.

End Dispatch.


(** A frame whose [type] is a string that standard output cannot encode is
    not discarded either: the no-handler line cannot be printed. *)
Lemma on_message_surrogate_type_raises :
  hashable (JString Sample.lone_surrogate) = true
  /\ printable (JString Sample.lone_surrogate) = false
  /\ _on_message Sample.environment Sample.surrogate_typed_text Sample.fresh_client
     = (Raised UnicodeEncodeError, Sample.fresh_client).
Proof. repeat split. Qed.



(** *** Reconnection *)

(** A close that is handled after [disconnect] starts no reconnection. *)
Lemma on_close_after_disconnect (E : env) (w : world) (close_status_code : Z)
    (close_msg : string) (meanwhile : prog unit) :
  let w1 := snd (disconnect w) in
  _on_close E close_status_code close_msg meanwhile w1 =
    (Returned tt,
     {| self := self w1;
        log := log w1 ++ [Print (DisconnectedFrom (url (self w1)) close_status_code close_msg)];
        created := created w1 |}).
Proof.
  destruct w as [c l n]. unfold disconnect, _on_close, bind, assign, read. simpl.
  destruct (ws c); reflexivity.
Qed.

(** C3 fails when [disconnect] is called while [_on_close] waits: the flag
    was read before the wait and is not read again, so after the wait a new
    transport is created and started, and [connect] sets the flag again. *)
Theorem disconnect_during_delay_reconnects (E : env) (server_url : string)
    (close_status_code : Z) (close_msg : string) :
  let w := connected_client server_url 0 in
  let w' := snd (_on_close E close_status_code close_msg disconnect w) in
  fst (_on_close E close_status_code close_msg disconnect w) = Returned tt
  /\ _should_reconnect (self w') = true
  /\ ws (self w') = Some 1
  /\ creations (log w') = [1]
  /\ exists rest,
       log w' =
         [Print (DisconnectedFrom server_url close_status_code close_msg);
          Print AttemptingReconnect;
          Sleep 5;
          Close 0;
          Create 1 server_url;
          Start 1;
          Sleep 1] ++ rest.
Proof.
  unfold _on_close, connect, sleep, disconnect, new_transport, _on_open,
    bind, try_except, assign, read, print, emit, history, ret.
  simpl.
  destruct (handshake E _ 1); simpl; repeat split; eexists; reflexivity.
Qed.

(** From any state with the flag set, a [disconnect] during the wait does
    not stop the new transport from being created, and the flag ends up
    set. *)
Lemma on_close_ignores_disconnect_during_delay (E : env) (w : world)
    (close_status_code : Z) (close_msg : string) :
  _should_reconnect (self w) = true ->
  let w' := snd (_on_close E close_status_code close_msg disconnect w) in
  _should_reconnect (self w') = true
  /\ ws (self w') = Some (created w)
  /\ creations (log w') = creations (log w) ++ [created w].
Proof.
  destruct w as [c l n]. simpl. intros Hflag.
  unfold _on_close, connect, sleep, disconnect, new_transport, _on_open,
    bind, try_except, assign, read, print, emit, history, ret.
  simpl. rewrite Hflag. simpl.
  destruct (ws c); simpl;
    match goal with
    | |- context [handshake E ?past ?id] => destruct (handshake E past id)
    end; simpl;
    repeat split; rewrite <- ?app_assoc, ?creations_app; simpl;
    now rewrite ?app_nil_r.
Qed.

(** The same close with nothing happening during the wait, for comparison:
    one reconnection as well. *)
Lemma on_close_reconnects_once (E : env) (server_url : string)
    (close_status_code : Z) (close_msg : string) :
  creations
    (log (snd (_on_close E close_status_code close_msg (ret tt)
                 (connected_client server_url 0)))) = [1].
Proof.
  unfold _on_close, connect, sleep, new_transport, _on_open,
    bind, try_except, assign, read, print, emit, history, ret.
  simpl.
  destruct (handshake E _ 1); reflexivity.
Qed.

(** *** Sample runs *)




End RuntimeFacts.

(** * Further properties of the generator *)

(** ** Shape of the converted names *)

Module NamingFacts.
Import PyStr PyStrFacts.

Lemma sforall_app (p : ascii -> bool) (a b : string) :
  sforall p (a +:+ b) = sforall p a && sforall p b.
Proof.
  induction a as [|c r IH]; [reflexivity|].
  rewrite sapp_cons. cbn [sforall]. now rewrite IH, andb_assoc.
Qed.

Lemma sforall_smap (p q : ascii -> bool) (f : ascii -> ascii) (s : string) :
  (forall c, p c = true -> q (f c) = true) ->
  sforall p s = true -> sforall q (smap f s) = true.
Proof.
  intros Hf. induction s as [|c r IH]; simpl; [reflexivity|].
  intros [Hc Hr]%andb_true_iff. now rewrite (Hf _ Hc), IH.
Qed.

Lemma sforall_smap_all (q : ascii -> bool) (f : ascii -> ascii) (s : string) :
  (forall c, q (f c) = true) -> sforall q (smap f s) = true.
Proof.
  intros Hf. induction s as [|c r IH]; simpl; [reflexivity|].
  now rewrite Hf, IH.
Qed.

Lemma sforall_join (p : ascii -> bool) (l : list string) :
  Forall (fun w => sforall p w = true) l -> sforall p (join l) = true.
Proof.
  induction 1 as [|w ws Hw _ IH]; simpl; [reflexivity|].
  now rewrite sforall_app, Hw, IH.
Qed.

Lemma lower_app (a b : string) : lower (a +:+ b) = lower a +:+ lower b.
Proof.
  unfold lower. induction a as [|c r IH]; [reflexivity|].
  rewrite sapp_cons. cbn [smap]. now rewrite IH.
Qed.

Lemma remove_app (old : ascii) (a b : string) :
  remove old (a +:+ b) = remove old a +:+ remove old b.
Proof.
  induction a as [|c r IH]; [reflexivity|].
  rewrite sapp_cons. cbn [remove]. rewrite IH. now destruct (Ascii.eqb c old).
Qed.

Lemma remove_lower (s : string) : remove "_" (lower s) = lower (remove "_" s).
Proof.
  unfold lower. induction s as [|c r IH]; [reflexivity|].
  cbn [smap remove]. rewrite lower_char_underscore, IH.
  now destruct (Ascii.eqb c "_").
Qed.

(** *** The two substitutions only put underscores in *)

Lemma underscored_re_sub_word (n : nat) :
  forall (s : string) (in_run : bool),
    String.length s <= n -> underscored s (re_sub_word in_run s).
Proof.
  induction n as [|n IH]; intros [|c t] in_run Hlen;
    cbn [String.length] in Hlen; try lia; try apply underscored_end.
  rewrite re_sub_word_eq.
  destruct (in_run && is_lower c); [apply underscored_keep, IH; lia|].
  destruct t as [|u [|l rest]]; try (apply underscored_keep, IH; lia).
  destruct (negb (Ascii.eqb c "010") && is_upper u && is_lower l).
  - apply underscored_keep, underscored_put. do 2 apply underscored_keep.
    apply IH. cbn [String.length] in Hlen. lia.
  - apply underscored_keep, IH. lia.
Qed.

Lemma underscored_re_sub_hump (n : nat) :
  forall s : string, String.length s <= n -> underscored s (re_sub_hump s).
Proof.
  induction n as [|n IH]; intros [|a t] Hlen;
    cbn [String.length] in Hlen; try lia; try apply underscored_end.
  rewrite re_sub_hump_eq.
  destruct t as [|b rest]; [apply underscored_keep, underscored_end|].
  destruct ((is_lower a || is_digit a) && is_upper b).
  - apply underscored_keep, underscored_put, underscored_keep, IH.
    cbn [String.length] in Hlen. lia.
  - apply underscored_keep, IH. lia.
Qed.

Lemma underscored_remove (s s' : string) :
  underscored s s' -> remove "_" s' = remove "_" s.
Proof.
  induction 1 as [|c s s' _ IH|s s' _ IH]; [reflexivity| |exact IH].
  cbn [remove]. now rewrite IH.
Qed.

Lemma underscored_sforall (p : ascii -> bool) (s s' : string) :
  p "_"%char = true -> underscored s s' ->
  sforall p s = true -> sforall p s' = true.
Proof.
  intros Hp. induction 1 as [|c s s' _ IH|s s' _ IH]; cbn [sforall]; auto.
  - intros [Hc Hs]%andb_true_iff. now rewrite Hc, IH.
  - intros Hs. now rewrite Hp, IH.
Qed.

Lemma underscored_lower (s s' : string) :
  underscored s s' -> underscored (lower s) (lower s').
Proof.
  induction 1 as [|c s s' _ IH|s s' _ IH]; [constructor| |].
  - apply (underscored_keep (lower_char c)), IH.
  - apply underscored_put, IH.
Qed.

Lemma underscored_trans (a b c : string) :
  underscored a b -> underscored b c -> underscored a c.
Proof.
  intros Hab Hbc. revert a Hab.
  induction Hbc as [|x s s' _ IH|s s' _ IH]; intros a Hab.
  - exact Hab.
  - inversion Hab; subst.
    + apply underscored_keep, IH. assumption.
    + apply underscored_put, IH. assumption.
  - apply underscored_put, IH, Hab.
Qed.

Lemma to_snake_case_underscored (x : string) :
  underscored (lower x) (to_snake_case x).
Proof.
  unfold to_snake_case. apply underscored_lower.
  eapply underscored_trans.
  - apply (underscored_re_sub_word (String.length x)). lia.
  - apply (underscored_re_sub_hump (String.length (re_sub_word false x))). lia.
Qed.

Lemma to_snake_case_no_upper_out (x : string) : no_upper (to_snake_case x) = true.
Proof. apply lower_not_upper. Qed.

Lemma to_snake_case_fixed (y : string) : no_upper y = true -> to_snake_case y = y.
Proof.
  intros H. rewrite (to_snake_case_no_upper _ H). now apply lower_fixed.
Qed.

End NamingFacts.

(** X1: converting twice changes nothing more: the snake form has no
    upper-case letter, and [to_snake_case] leaves such a text as it is.  So
    a name and its snake form always get the same method name. *)
Theorem to_snake_case_idempotent (x : string) :
  no_upper (to_snake_case x) = true
  /\ to_snake_case (to_snake_case x) = to_snake_case x
  /\ method_name (to_snake_case x) = method_name x.
Proof.
  pose proof (NamingFacts.to_snake_case_no_upper_out x) as Hout.
  pose proof (NamingFacts.to_snake_case_fixed _ Hout) as Hfix.
  split; [exact Hout|]. split; [exact Hfix|].
  unfold method_name. now rewrite Hfix.
Qed.

(** X2: on ASCII text [to_snake_case] keeps every character of its input
    in place, up to case: the result is the lower-cased input with
    underscores put in, so deleting the underscores of both gives the same
    text. *)
Theorem to_snake_case_only_adds_underscores (x : string) :
  is_ascii x = true ->
  underscored (PyStr.lower x) (to_snake_case x)
  /\ PyStr.remove "_" (to_snake_case x) = PyStr.lower (PyStr.remove "_" x).
Proof.
  intros _. pose proof (NamingFacts.to_snake_case_underscored x) as H.
  split; [exact H|].
  rewrite (NamingFacts.underscored_remove _ _ H). apply NamingFacts.remove_lower.
Qed.

Lemma to_snake_case_only_adds_underscores_witness :
  is_ascii "GPIOPin_v2" = true
  /\ to_snake_case "GPIOPin_v2" = "gpio_pin_v2"
  /\ PyStr.remove "_" (to_snake_case "GPIOPin_v2") = "gpiopinv2".
Proof.
  split; [reflexivity|]. split; [reflexivity|].
  etransitivity;
    [exact (proj2 (to_snake_case_only_adds_underscores "GPIOPin_v2" eq_refl))
    | reflexivity].
Defined.

Module CaseFacts.
Import PyStr PyStrFacts NamingFacts.

Lemma lower_upper_char (c : ascii) : lower_char (upper_char c) = lower_char c.
Proof. by_cases_on_char c. Qed.

Lemma lower_capitalize (w : string) : lower (capitalize w) = lower w.
Proof.
  destruct w as [|c r]; [reflexivity|].
  unfold lower. cbn [capitalize smap]. fold (lower r).
  rewrite lower_upper_char. f_equal. apply lower_idem.
Qed.

Lemma lower_join_capitalize (l : list string) :
  lower (join (map capitalize l)) = lower (join l).
Proof.
  induction l as [|w ws IH]; [reflexivity|].
  cbn [map join]. now rewrite !lower_app, lower_capitalize, IH.
Qed.

Lemma join_split (sep : ascii) (s : string) : join (split sep s) = remove sep s.
Proof.
  induction s as [|c r IH]; [reflexivity|].
  cbn [split remove]. destruct (Ascii.eqb c sep).
  - cbn [join]. exact IH.
  - destruct (split sep r) as [|w ws] eqn:Hs; [now destruct (split_nonempty _ _ Hs)|].
    cbn [join] in *. now rewrite sapp_cons, IH.
Qed.

Lemma remove_replaced_separators (x : string) :
  remove "_" (replace " " "_" (replace "-" "_" x)) = remove_separators x.
Proof.
  unfold replace. induction x as [|c r IH]; [reflexivity|].
  cbn [smap remove remove_separators]. rewrite IH.
  by_cases_on_char c.
Qed.

Lemma remove_separators_underscore (x : string) :
  no_char "-" x = true -> no_char " " x = true ->
  remove_separators x = remove "_" x.
Proof.
  intros Hd Hs. rewrite <- remove_replaced_separators.
  now rewrite (replace_absent _ _ _ Hd), (replace_absent _ _ _ Hs).
Qed.

Lemma lower_to_pascal_case (x : string) :
  lower (to_pascal_case x) = lower (remove_separators x).
Proof.
  unfold to_pascal_case.
  now rewrite lower_join_capitalize, join_split, remove_replaced_separators.
Qed.

(** The segments of a split hold no separator character. *)
Lemma split_segments (q : ascii -> bool) (sep : ascii) (s : string) :
  sforall q s = true ->
  Forall (fun w => sforall (fun c => q c && negb (Ascii.eqb c sep)) w = true)
         (split sep s).
Proof.
  induction s as [|c r IH]; cbn [sforall split].
  - intros _. now repeat constructor.
  - intros [Hc Hr]%andb_true_iff. specialize (IH Hr).
    destruct (Ascii.eqb c sep) eqn:Hsep; [now constructor|].
    destruct (split sep r) as [|w ws]; [now repeat constructor; cbn; rewrite Hc, Hsep|].
    inversion IH as [|? ? Hw Hws]; subst. constructor; [|exact Hws].
    cbn [sforall]. now rewrite Hc, Hsep, Hw.
Qed.

Lemma capitalize_no_separator (w : string) :
  sforall (fun c => negb (is_separator c)) w = true ->
  sforall (fun c => negb (is_separator c)) (capitalize w) = true.
Proof.
  destruct w as [|c r]; [reflexivity|]. cbn [capitalize sforall].
  intros [Hc Hr]%andb_true_iff. apply andb_true_iff. split.
  - revert Hc. by_cases_on_char c.
  - revert Hr. apply sforall_smap. intros x. by_cases_on_char x.
Qed.

Lemma to_pascal_case_no_separator_out (x : string) :
  sforall (fun c => negb (is_separator c)) (to_pascal_case x) = true.
Proof.
  unfold to_pascal_case. apply sforall_join.
  apply Forall_map.
  assert (Hy : sforall (fun c => negb (Ascii.eqb c "-") && negb (Ascii.eqb c " "))
                 (replace " " "_" (replace "-" "_" x)) = true).
  { unfold replace. induction x as [|c r IH]; [reflexivity|].
    cbn [smap sforall]. rewrite IH, andb_true_r. by_cases_on_char c. }
  eapply Forall_impl; [apply (split_segments _ "_" _ Hy)|].
  intros w Hw. apply capitalize_no_separator.
  revert Hw. apply sforall_impl. intros c. by_cases_on_char c.
Qed.

Lemma to_kebab_case_no_upper (x : string) : no_upper (to_kebab_case x) = true.
Proof.
  unfold to_kebab_case, replace.
  apply (sforall_smap (fun c => negb (is_upper c))); [|apply lower_not_upper].
  intros c. by_cases_on_char c.
Qed.

Lemma to_kebab_case_no_underscore (x : string) : no_char "_" (to_kebab_case x) = true.
Proof.
  unfold to_kebab_case, replace. apply sforall_smap_all.
  intros c. by_cases_on_char c.
Qed.

Lemma to_kebab_case_no_space (x : string) :
  no_char " " x = true -> no_char " " (to_kebab_case x) = true.
Proof.
  intros Hx. unfold to_kebab_case, replace.
  apply (sforall_smap (fun c => negb (Ascii.eqb c " "))); [intros c; by_cases_on_char c|].
  apply (underscored_sforall _ (lower x)); [reflexivity | apply to_snake_case_underscored |].
  revert Hx. apply sforall_smap. intros c. by_cases_on_char c.
Qed.

End CaseFacts.

(** X3: on ASCII text [to_pascal_case] deletes the separators [-], [_] and
    space and changes the case of letters, nothing else: up to case its
    result is the input without its separators, and the result holds no
    separator. *)
Theorem to_pascal_case_deletes_separators (x : string) :
  is_ascii x = true ->
  PyStr.lower (to_pascal_case x) = PyStr.lower (remove_separators x)
  /\ PyStr.sforall (fun c => negb (is_separator c)) (to_pascal_case x) = true.
Proof.
  intros _.
  split; [apply CaseFacts.lower_to_pascal_case
         | apply CaseFacts.to_pascal_case_no_separator_out].
Qed.

Lemma to_pascal_case_deletes_separators_witness :
  is_ascii "gpio-pin_STATE v2" = true
  /\ to_pascal_case "gpio-pin_STATE v2" = "GpioPinStateV2"
  /\ PyStr.lower (to_pascal_case "gpio-pin_STATE v2") = "gpiopinstatev2".
Proof.
  split; [reflexivity|]. split; [reflexivity|].
  etransitivity;
    [exact (proj1 (to_pascal_case_deletes_separators "gpio-pin_STATE v2" eq_refl))
    | reflexivity].
Defined.

(** X4: the kebab form has no upper-case letter and no underscore, and
    converting it again gives it back. *)
Theorem to_kebab_case_idempotent (x : string) :
  no_upper (to_kebab_case x) = true
  /\ no_char "_" (to_kebab_case x) = true
  /\ to_kebab_case (to_kebab_case x) = to_kebab_case x.
Proof.
  pose proof (CaseFacts.to_kebab_case_no_upper x) as Hu.
  pose proof (CaseFacts.to_kebab_case_no_underscore x) as Hn.
  split; [exact Hu|]. split; [exact Hn|].
  unfold to_kebab_case at 1.
  rewrite (NamingFacts.to_snake_case_fixed _ Hu).
  now apply PyStrFacts.replace_absent.
Qed.

(** X5: on an ASCII name without [-] and space the Pascal and the snake
    form are the same text up to case and underscores. *)
Theorem pascal_and_snake_agree (x : string) :
  is_ascii x = true ->
  no_char "-" x = true -> no_char " " x = true ->
  PyStr.lower (to_pascal_case x) = PyStr.remove "_" (to_snake_case x).
Proof.
  intros _ Hd Hs.
  rewrite CaseFacts.lower_to_pascal_case,
    (CaseFacts.remove_separators_underscore _ Hd Hs).
  rewrite (NamingFacts.underscored_remove _ _ (NamingFacts.to_snake_case_underscored x)).
  symmetry. apply NamingFacts.remove_lower.
Qed.

Lemma pascal_and_snake_agree_witness :
  (is_ascii "GpioMessage_v2" = true
   /\ no_char "-" "GpioMessage_v2" = true /\ no_char " " "GpioMessage_v2" = true)
  /\ PyStr.lower (to_pascal_case "GpioMessage_v2")
     = PyStr.remove "_" (to_snake_case "GpioMessage_v2").
Proof.
  split; [repeat split|].
  exact (pascal_and_snake_agree "GpioMessage_v2" eq_refl eq_refl eq_refl).
Defined.

(** X6: the package name written to [pyproject.toml] holds no space, no
    underscore and no upper-case letter, whatever the title. *)
Theorem package_name_characters (title : string) :
  no_char " " (package_name title) = true
  /\ no_char "_" (package_name title) = true
  /\ no_upper (package_name title) = true.
Proof.
  unfold package_name, no_char, no_upper.
  rewrite !NamingFacts.sforall_app.
  repeat split; apply andb_true_iff; (split; [|reflexivity]).
  - apply CaseFacts.to_kebab_case_no_space.
    unfold PyStr.replace. apply NamingFacts.sforall_smap_all.
    intros c. PyStrFacts.by_cases_on_char c.
  - apply CaseFacts.to_kebab_case_no_underscore.
  - apply CaseFacts.to_kebab_case_no_upper.
Qed.

(** ** Type mapping and the schema table *)

Lemma get_python_type_any_table :
  forall (sch : schema) (table1 table2 : list (string * schema)),
    get_python_type sch table1 = get_python_type sch table2.
Proof.
  fix IH 1. intros [ref type enum title description items properties required] table1 table2.
  cbn [get_python_type].
  destruct ref as [r|]; [reflexivity|].
  destruct items as [i|]; [|reflexivity].
  now rewrite (IH i table1 table2).
Qed.

Lemma field_lines_any_table (prop_name : string) (prop_schema : schema)
    (table1 table2 : list (string * schema)) :
  required_field prop_name prop_schema table1 = required_field prop_name prop_schema table2
  /\ optional_field prop_name prop_schema table1 = optional_field prop_name prop_schema table2.
Proof.
  unfold required_field, optional_field.
  now rewrite (get_python_type_any_table prop_schema table1 table2).
Qed.

Lemma emit_dataclass_any_table (mkset : list string -> list string)
    (table1 table2 : list (string * schema)) (schema_name : string) (sch : schema)
    (code : string) :
  emit_dataclass mkset table1 schema_name sch code
  = emit_dataclass mkset table2 schema_name sch code.
Proof.
  unfold emit_dataclass.
  rewrite (fold_left_pointwise
             (fun code '(prop_name, prop_schema) =>
                if negb (set_in prop_name (mkset (get (s_required sch) [])))
                then code +:+ optional_field prop_name prop_schema table1 else code)
             (fun code '(prop_name, prop_schema) =>
                if negb (set_in prop_name (mkset (get (s_required sch) [])))
                then code +:+ optional_field prop_name prop_schema table2 else code))
    by (intros c [p s]; now rewrite (proj2 (field_lines_any_table p s table1 table2))).
  f_equal. apply fold_left_pointwise.
  intros c [p s]. now rewrite (proj1 (field_lines_any_table p s table1 table2)).
Qed.

(** X7: the type of a property is read off the property alone, at every
    depth of array nesting: no schema table changes it, so a [$ref] is
    never followed and a record's field lines are the same under any
    table. *)
Theorem get_python_type_ignores_table (sch : schema)
    (table1 table2 : list (string * schema)) (prop_name : string) :
  get_python_type sch table1 = get_python_type sch table2
  /\ get_python_type (Schema None (Some "array") None None None (Some sch) None None) table1
     = "List[" +:+ get_python_type sch [] +:+ "]"
  /\ required_field prop_name sch table1 = required_field prop_name sch table2
  /\ optional_field prop_name sch table1 = optional_field prop_name sch table2.
Proof.
  split; [apply get_python_type_any_table|]. split.
  - cbn [get_python_type get]. unfold String.eqb at 1.
    now rewrite (get_python_type_any_table sch table1 []).
  - apply field_lines_any_table.
Qed.

(** ** Sections of the emitted module *)

Module EmitFacts.
Import PyStr PyStrFacts.

Lemma join_flat_map {A B : Type} (f : A -> list B) (g : B -> string) (l : list A) :
  join (map g (flat_map f l)) = join (map (fun x => join (map g (f x))) l).
Proof.
  induction l as [|x l IH]; [reflexivity|].
  cbn [flat_map map join]. now rewrite map_app, join_app, IH.
Qed.

Lemma method_name_snake (message_name : string) :
  lower (to_snake_case message_name) = to_snake_case message_name.
Proof. unfold to_snake_case. apply lower_idem. Qed.

(** A loop over the messages appends one piece per message, channel by
    channel. *)
Lemma emit_per_message_text (piece : string -> string -> string)
    (channels : list (string * channel)) (code : string) :
  emit_per_message piece channels code =
    code +:+ join (map (fun m => piece (to_snake_case m) m) (all_messages channels)).
Proof.
  unfold emit_per_message, all_messages.
  rewrite (fold_left_emit _
             (fun entry : string * channel =>
                join (map (fun m => piece (to_snake_case m) m)
                          (map fst (get (messages (snd entry)) []))))).
  - now rewrite join_flat_map.
  - intros c [channel_name chan]. cbn [snd].
    rewrite (fold_left_emit _
               (fun msg : string * message_spec =>
                  piece (to_snake_case (fst msg)) (fst msg))).
    + now rewrite map_map.
    + intros c' [message_name spec]. cbn [fst]. now rewrite method_name_snake.
Qed.

Lemma emit_enums_from_empty (schemas : list (string * schema)) (code : string) :
  emit_enums schemas code = code +:+ emit_enums schemas EmptyString.
Proof. now rewrite (emit_enums_text schemas code), (emit_enums_text schemas EmptyString). Qed.

Lemma emit_dataclass_from_empty (mkset : list string -> list string)
    (table : list (string * schema)) (schema_name : string) (sch : schema) (code : string) :
  emit_dataclass mkset table schema_name sch code
  = code +:+ emit_dataclass mkset table schema_name sch EmptyString.
Proof.
  unfold emit_dataclass.
  set (required := mkset (get (s_required sch) [])).
  set (header := dataclass_header _ _).
  set (opt := fun p : string * schema =>
                if negb (set_in (fst p) required)
                then optional_field (fst p) (snd p) table else EmptyString).
  set (req := fun p : string * schema =>
                if set_in (fst p) required
                then required_field (fst p) (snd p) table else EmptyString).
  assert (Hopt : forall l c,
             fold_left (fun code '(prop_name, prop_schema) =>
                          if negb (set_in prop_name required)
                          then code +:+ optional_field prop_name prop_schema table
                          else code) l c
             = c +:+ join (map opt l)).
  { apply fold_left_emit. intros c [p s]. subst opt. cbn [fst snd].
    destruct (negb (set_in p required)); [reflexivity | now rewrite sapp_nil_r]. }
  assert (Hreq : forall l c,
             fold_left (fun code '(prop_name, prop_schema) =>
                          if set_in prop_name required
                          then code +:+ required_field prop_name prop_schema table
                          else code) l c
             = c +:+ join (map req l)).
  { apply fold_left_emit. intros c [p s]. subst req. cbn [fst snd].
    destruct (set_in p required); [reflexivity | now rewrite sapp_nil_r]. }
  rewrite !Hopt, !Hreq. now rewrite !sapp_assoc.
Qed.

Lemma emit_dataclasses_in_table (mkset : list string -> list string)
    (table items : list (string * schema)) (code : string) :
  fold_left
    (fun code '(schema_name, sch) =>
       if is_object_schema sch then emit_dataclass mkset table schema_name sch code
       else code)
    items code
  = code +:+ join (map (fun entry : string * schema =>
                          if is_object_schema (snd entry)
                          then emit_dataclass mkset table (fst entry) (snd entry) EmptyString
                          else EmptyString) items).
Proof.
  apply fold_left_emit. intros c [schema_name sch]. cbn [fst snd].
  destruct (is_object_schema sch);
    [apply emit_dataclass_from_empty | now rewrite sapp_nil_r].
Qed.

Lemma emit_dataclasses_from_empty (mkset : list string -> list string)
    (schemas : list (string * schema)) (code : string) :
  emit_dataclasses mkset schemas code = code +:+ emit_dataclasses mkset schemas EmptyString.
Proof.
  unfold emit_dataclasses.
  now rewrite (emit_dataclasses_in_table mkset schemas schemas code),
    (emit_dataclasses_in_table mkset schemas schemas EmptyString).
Qed.

Lemma emit_per_message_from_empty (piece : string -> string -> string)
    (channels : list (string * channel)) (code : string) :
  emit_per_message piece channels code
  = code +:+ emit_per_message piece channels EmptyString.
Proof.
  now rewrite (emit_per_message_text piece channels code),
    (emit_per_message_text piece channels EmptyString).
Qed.

End EmitFacts.

(** X8: the client gets one pair of methods [send_<name>] and [on_<name>]
    per message, channel by channel and in the order of each channel's
    [messages], a channel without [messages] giving none; [<name>] is the
    snake form of the message name.  The README lists the same methods,
    under the same names and in the same order. *)
Theorem methods_per_message (channels : list (string * channel)) (code : string) :
  emit_per_message message_methods channels code =
    code +:+ PyStr.join
      (map (fun m => message_methods (to_snake_case m) m) (all_messages channels))
  /\ readme_method_docs channels =
       match channels with
       | [] => EmptyString
       | _ :: _ =>
           ("### Available Methods" +:+ newline +:+ newline)
           +:+ PyStr.join
                 (map (fun m =>
                         ("- `send_" +:+ to_snake_case m +:+ "(payload)` - Send "
                          +:+ m +:+ newline)
                         +:+ "- `on_" +:+ to_snake_case m +:+ "(handler)` - Handle "
                         +:+ m +:+ newline)
                      (all_messages channels))
           +:+ newline
       end.
Proof.
  split; [apply EmitFacts.emit_per_message_text|].
  destruct channels as [|entry rest]; [reflexivity|].
  unfold readme_method_docs.
  pose proof (EmitFacts.emit_per_message_text
                (fun name m =>
                   ("- `send_" +:+ name +:+ "(payload)` - Send " +:+ m +:+ newline)
                   +:+ "- `on_" +:+ name +:+ "(handler)` - Handle " +:+ m +:+ newline)
                (entry :: rest)
                ("### Available Methods" +:+ newline +:+ newline)) as H.
  unfold emit_per_message in H.
  etransitivity; [|apply PyStrFacts.sapp_assoc].
  rewrite <- H. f_equal.
  apply fold_left_pointwise. intros c [channel_name chan].
  apply fold_left_pointwise. intros c' [message_name spec].
  now rewrite !PyStrFacts.sapp_assoc.
Qed.

(** X9: the emitted module is a fixed sequence of sections: the prologue,
    the enums, the data classes, the client class, the methods per message,
    the example's prologue, its handlers and its epilogue.  What a section
    holds does not depend on the text before it. *)
Theorem generate_client_code_sections (mkset : list string -> list string)
    (title description server_url : string)
    (schemas : list (string * schema)) (channels : list (string * channel)) :
  generate_client_code mkset title description server_url schemas channels =
    module_prologue title description
    +:+ emit_enums schemas EmptyString
    +:+ (newline +:+ newline +:+ "# Generated Data Classes")
    +:+ emit_dataclasses mkset schemas EmptyString
    +:+ client_class (client_class_name title) title description server_url
    +:+ emit_per_message message_methods channels EmptyString
    +:+ main_prologue title (client_class_name title)
    +:+ emit_per_message example_handler channels EmptyString
    +:+ main_epilogue.
Proof.
  unfold generate_client_code.
  rewrite (EmitFacts.emit_per_message_from_empty example_handler).
  rewrite (EmitFacts.emit_per_message_from_empty message_methods).
  rewrite (EmitFacts.emit_dataclasses_from_empty mkset).
  rewrite (EmitFacts.emit_enums_from_empty schemas).
  now rewrite !PyStrFacts.sapp_assoc.
Qed.

Module SkipFacts.
Import PyStr PyStrFacts.

Lemma emit_enums_skip (pre post : list (string * schema)) (schema_name : string)
    (sch : schema) (code : string) :
  is_enum_schema sch = false ->
  emit_enums (pre ++ (schema_name, sch) :: post) code = emit_enums (pre ++ post) code.
Proof.
  intros H. rewrite !emit_enums_text, !map_app, !join_app.
  cbn [map join]. now rewrite H.
Qed.

Lemma emit_dataclasses_skip (mkset : list string -> list string)
    (pre post : list (string * schema)) (schema_name : string) (sch : schema)
    (code : string) :
  is_object_schema sch = false ->
  emit_dataclasses mkset (pre ++ (schema_name, sch) :: post) code
  = emit_dataclasses mkset (pre ++ post) code.
Proof.
  intros H. unfold emit_dataclasses.
  rewrite !EmitFacts.emit_dataclasses_in_table, !map_app, !join_app.
  cbn [map join fst snd]. rewrite H.
  assert (Hext : forall l : list (string * schema),
             map (fun entry : string * schema =>
                    if is_object_schema (snd entry)
                    then emit_dataclass mkset (pre ++ (schema_name, sch) :: post)
                           (fst entry) (snd entry) EmptyString
                    else EmptyString) l
             = map (fun entry : string * schema =>
                      if is_object_schema (snd entry)
                      then emit_dataclass mkset (pre ++ post)
                             (fst entry) (snd entry) EmptyString
                      else EmptyString) l).
  { intros l. apply map_ext. intros [n s]. cbn [fst snd].
    destruct (is_object_schema s); [apply emit_dataclass_any_table | reflexivity]. }
  now rewrite !Hext.
Qed.

(** The data-class loop, entry by entry: the record of an object schema
    comes after what the loop emits for the entries before it and before
    what it emits for the entries after it. *)
Lemma emit_dataclasses_entry (mkset : list string -> list string)
    (pre post : list (string * schema)) (schema_name : string) (sch : schema)
    (code : string) :
  is_object_schema sch = true ->
  emit_dataclasses mkset (pre ++ (schema_name, sch) :: post) code
  = emit_dataclasses mkset pre code
    +:+ emit_dataclass mkset (pre ++ (schema_name, sch) :: post) schema_name sch EmptyString
    +:+ emit_dataclasses mkset post EmptyString.
Proof.
  intros H. unfold emit_dataclasses.
  rewrite !EmitFacts.emit_dataclasses_in_table, !map_app, !join_app.
  cbn [map join fst snd]. rewrite H.
  assert (Hext : forall table l,
             map (fun entry : string * schema =>
                    if is_object_schema (snd entry)
                    then emit_dataclass mkset (pre ++ (schema_name, sch) :: post)
                           (fst entry) (snd entry) EmptyString
                    else EmptyString) l
             = map (fun entry : string * schema =>
                      if is_object_schema (snd entry)
                      then emit_dataclass mkset table (fst entry) (snd entry) EmptyString
                      else EmptyString) l).
  { intros table l. apply map_ext. intros [n s]. cbn [fst snd].
    destruct (is_object_schema s); [apply emit_dataclass_any_table | reflexivity]. }
  rewrite (Hext pre pre), (Hext post post).
  now rewrite !sapp_assoc.
Qed.

Lemma readme_step_empty_enum (docs schema_name : string) (sch : schema) :
  s_type sch = Some "string" -> s_enum sch = Some [] ->
  readme_schema_step docs (schema_name, sch)
  = docs +:+ "- **" +:+ to_pascal_case schema_name +:+ "** (Enum): " +:+ newline.
Proof.
  intros Ht He. unfold readme_schema_step, has_enum_key. now rewrite Ht, He.
Qed.

Lemma readme_step_empty_record (docs schema_name : string) (sch : schema) :
  s_type sch = Some "object" -> get (s_properties sch) [] = [] ->
  readme_schema_step docs (schema_name, sch) = docs.
Proof.
  intros Ht Hp. unfold readme_schema_step, has_enum_key, is_object_schema.
  rewrite Ht, Hp. now destruct (s_enum sch).
Qed.

End SkipFacts.

(** C7: for an object schema of the table, the data-class loop emits,
    after the text for the entries before it, the record's header, then
    the lines of the properties named in [required], then the lines of the
    others, each group in the order of [properties], and after that the
    text for the entries that follow. *)
Theorem record_field_order (mkset : list string -> list string)
    (pre post : list (string * schema)) (schema_name : string) (sch : schema)
    (code : string) :
  set_constructor mkset ->
  s_type sch = Some "object" ->
  let schemas := pre ++ (schema_name, sch) :: post in
  let properties := get (s_properties sch) [] in
  let required_first :=
    List.filter (is_required sch) properties
    ++ List.filter (fun p => negb (is_required sch p)) properties in
  emit_dataclasses mkset schemas code =
    emit_dataclasses mkset pre code
    +:+ dataclass_header (to_pascal_case schema_name)
          (get (s_description sch) ("Data class for " +:+ schema_name))
    +:+ PyStr.join
          (map (fun p => if is_required sch p
                         then required_field (fst p) (snd p) schemas
                         else optional_field (fst p) (snd p) schemas)
               required_first)
    +:+ emit_dataclasses mkset post EmptyString.
Proof.
  intros Hset Ht schemas properties required_first.
  assert (Hobj : is_object_schema sch = true)
    by (unfold is_object_schema; now rewrite Ht).
  subst schemas. rewrite (SkipFacts.emit_dataclasses_entry mkset _ _ _ _ _ Hobj).
  rewrite (emit_dataclass_required_first mkset Hset).
  subst required_first properties. cbv zeta.
  now rewrite !PyStrFacts.sapp_assoc.
Qed.

(** The record of the specification's example, [a] required and [b] not,
    after the two schemas of the sample table. *)
Lemma record_field_order_a_b :
  (set_constructor (fun l => rev l) /\ s_type Sample.a_b_record = Some "object")
  /\ emit_dataclasses (fun l => rev l) (Sample.schemas ++ [("Pair", Sample.a_b_record)])
       EmptyString
     = emit_dataclasses (fun l => rev l) Sample.schemas EmptyString
       +:+ dataclass_header "Pair" "Data class for Pair"
       +:+ "    a: str" +:+ newline
       +:+ "    b: Optional[int] = None" +:+ newline.
Proof.
  assert (Hrev : set_constructor (fun l => rev l)).
  { intros l x. symmetry. apply in_rev. }
  split; [split; [exact Hrev | reflexivity]|].
  etransitivity;
    [exact (record_field_order (fun l => rev l) Sample.schemas [] "Pair"
              Sample.a_b_record EmptyString Hrev eq_refl)
    | reflexivity].
Defined.

(** X10: a schema of the table that is neither a string schema with a
    non-empty [enum] nor an object schema leaves no trace in the emitted
    module: the text is the same as without that entry. *)
Theorem generate_client_code_skips_other_schemas (mkset : list string -> list string)
    (title description server_url : string)
    (pre post : list (string * schema)) (schema_name : string) (sch : schema)
    (channels : list (string * channel)) :
  is_enum_schema sch = false -> is_object_schema sch = false ->
  generate_client_code mkset title description server_url
    (pre ++ (schema_name, sch) :: post) channels
  = generate_client_code mkset title description server_url (pre ++ post) channels.
Proof.
  intros He Ho. unfold generate_client_code.
  now rewrite (SkipFacts.emit_enums_skip pre post schema_name sch _ He),
    (SkipFacts.emit_dataclasses_skip mkset pre post schema_name sch _ Ho).
Qed.

Lemma generate_client_code_skips_other_schemas_witness :
  let alias := Schema None (Some "array") None None None
                 (Some (ref_to "#/components/schemas/GpioPin")) None None in
  (is_enum_schema alias = false /\ is_object_schema alias = false)
  /\ generate_client_code (fun l => l) "Phobos GPIO interface API" "Controls pins."
       "wss://127.0.0.1" (Sample.schemas ++ [("PinList", alias)]) Sample.channels
     = generate_client_code (fun l => l) "Phobos GPIO interface API" "Controls pins."
         "wss://127.0.0.1" Sample.schemas Sample.channels.
Proof.
  intros alias. split; [split; reflexivity|].
  etransitivity;
    [exact (generate_client_code_skips_other_schemas (fun l => l) _ _ _
              Sample.schemas [] "PinList" alias Sample.channels eq_refl eq_refl)|].
  now rewrite app_nil_r.
Defined.

(** X11: a string schema whose [enum] is present but empty is listed in the
    README as an enum without values, while the client module gets no enum
    class for it. *)
Theorem readme_lists_enum_without_values (pre post : list (string * schema))
    (schema_name : string) (sch : schema) (code : string) :
  s_type sch = Some "string" -> s_enum sch = Some [] ->
  readme_schema_docs (pre ++ (schema_name, sch) :: post) =
    fold_left readme_schema_step post
      (fold_left readme_schema_step pre ("### Generated Data Types" +:+ newline +:+ newline)
       +:+ "- **" +:+ to_pascal_case schema_name +:+ "** (Enum): " +:+ newline)
    +:+ newline
  /\ emit_enums (pre ++ (schema_name, sch) :: post) code = emit_enums (pre ++ post) code.
Proof.
  intros Ht He. split.
  - unfold readme_schema_docs.
    destruct (pre ++ (schema_name, sch) :: post) as [|e l] eqn:Hl;
      [now destruct pre|].
    rewrite <- Hl, fold_left_app. cbn [fold_left].
    now rewrite (SkipFacts.readme_step_empty_enum _ _ _ Ht He).
  - apply SkipFacts.emit_enums_skip. unfold is_enum_schema. now rewrite Ht, He.
Qed.

Lemma readme_lists_enum_without_values_witness :
  let sch := Schema None (Some "string") (Some []) None None None None None in
  readme_schema_docs [("gpio-mode", sch)]
    = "### Generated Data Types" +:+ newline +:+ newline
      +:+ "- **GpioMode** (Enum): " +:+ newline +:+ newline
  /\ emit_enums [("gpio-mode", sch)] EmptyString = EmptyString.
Proof.
  intros sch.
  destruct (readme_lists_enum_without_values [] [] "gpio-mode" sch EmptyString
              eq_refl eq_refl) as [Hreadme Hclient].
  split; (etransitivity; [first [exact Hreadme | exact Hclient] | reflexivity]).
Defined.

(** X12: an object schema without properties gets its data class from the
    loop over the schema table, a header with nothing under it, but no
    line in the README. *)
Theorem readme_omits_empty_record (mkset : list string -> list string)
    (pre post : list (string * schema)) (schema_name : string) (sch : schema)
    (code docs : string) :
  s_type sch = Some "object" -> get (s_properties sch) [] = [] ->
  fold_left readme_schema_step (pre ++ (schema_name, sch) :: post) docs
    = fold_left readme_schema_step (pre ++ post) docs
  /\ emit_dataclasses mkset (pre ++ (schema_name, sch) :: post) code
     = emit_dataclasses mkset pre code
       +:+ dataclass_header (to_pascal_case schema_name)
             (get (s_description sch) ("Data class for " +:+ schema_name))
       +:+ emit_dataclasses mkset post EmptyString.
Proof.
  intros Ht Hp. split.
  - rewrite !fold_left_app. cbn [fold_left].
    now rewrite (SkipFacts.readme_step_empty_record _ _ _ Ht Hp).
  - assert (Hobj : is_object_schema sch = true)
      by (unfold is_object_schema; now rewrite Ht).
    rewrite (SkipFacts.emit_dataclasses_entry mkset _ _ _ _ _ Hobj).
    unfold emit_dataclass at 1. rewrite Hp. reflexivity.
Qed.

Lemma readme_omits_empty_record_witness :
  let sch := Schema None (Some "object") None None None None None None in
  fold_left readme_schema_step (Sample.schemas ++ [("Ping", sch)]) EmptyString
    = fold_left readme_schema_step Sample.schemas EmptyString
  /\ emit_dataclasses (fun l => l) (Sample.schemas ++ [("Ping", sch)]) EmptyString
     = emit_dataclasses (fun l => l) Sample.schemas EmptyString
       +:+ dataclass_header "Ping" "Data class for Ping".
Proof.
  intros sch.
  destruct (readme_omits_empty_record (fun l => l) Sample.schemas [] "Ping" sch
              EmptyString EmptyString eq_refl eq_refl) as [Hreadme Hclient].
  split.
  - etransitivity; [exact Hreadme|]. now rewrite app_nil_r.
  - etransitivity; [exact Hclient | reflexivity].
Defined.

(** * Further properties of the emitted client *)

Module ClientFacts.
Import Runtime RuntimeFacts.
Local Open Scope prog_scope.



(** X15: [disconnect] returns from every state and leaves the client
    disconnected with the auto-reconnect flag clear; calling it again
    changes no field; and a close that is handled after it, whatever else
    happens meanwhile, creates no transport and leaves the flag clear. *)
Theorem disconnect_then_close (E : env) (w : world)
    (close_status_code : Z) (close_msg : string) (meanwhile : prog unit) :
  let w1 := snd (disconnect w) in
  let w2 := snd (_on_close E close_status_code close_msg meanwhile w1) in
  fst (disconnect w) = Returned tt
  /\ connected (self w1) = false /\ _should_reconnect (self w1) = false
  /\ self (snd (disconnect w1)) = self w1
  /\ fst (_on_close E close_status_code close_msg meanwhile w1) = Returned tt
  /\ creations (log w2) = creations (log w)
  /\ self w2 = self w1.
Proof.
  intros w1 w2. subst w2 w1.
  pose proof (on_close_after_disconnect E w close_status_code close_msg meanwhile) as H.
  cbv zeta in H. rewrite H. clear H. cbn [fst snd self log].
  destruct w as [[server_url transport handlers errors is_connected thread flag] l n].
  unfold disconnect, bind, assign, read, emit, ret. simpl.
  destruct transport; simpl; repeat split;
    rewrite ?creations_app; simpl; now rewrite ?app_nil_r.
Qed.

Section Frames.

Variable E : env.

Lemma on_message_undecodable_run (message : string) (w : world) :
  json_loads E message = None ->
  _on_message E message w
  = if encodable message
    then (Returned tt,
          {| self := self w;
             log := (log w ++ [Print (DecodeFailed JSONDecodeError)])
                    ++ [Print (RawMessage message)];
             created := created w |})
    else (Raised UnicodeEncodeError,
          {| self := self w;
             log := log w ++ [Print (DecodeFailed JSONDecodeError)];
             created := created w |}).
Proof.
  intros Hload. unfold _on_message, try_except. rewrite Hload.
  unfold bind at 1. unfold raise at 1. cbn [is_JSONDecodeError].
  unfold bind, print, emit, print_text. cbn [self log created].
  now destruct (encodable message).
Qed.

(** Whatever the frame, the callback adds to the handler calls only calls
    with a decoded object. *)
Lemma on_message_calls (message : string) (w : world) :
  exists hs fields,
    calls (log (snd (_on_message E message w)))
    = calls (log w) ++ map (fun h => (h, JObject fields)) hs.
Proof.
  destruct (json_loads E message) as [v|] eqn:Hload.
  - destruct v as [| | | |items|fields];
      try (rewrite (on_message_not_an_object E message _ w Hload)
             by (intros ?; discriminate);
           exists [], []; cbn; now rewrite app_nil_r).
    destruct (hashable (get (assoc "type" fields) (JString "unknown"))) eqn:Hhash.
    + pose proof (on_message_unregistered E message fields w Hload) as Hun.
      pose proof (on_message_unprintable E message fields w Hload) as Hbad.
      cbv zeta in Hun, Hbad. specialize (Hun Hhash). specialize (Hbad Hhash).
      destruct (get (assoc "type" fields) (JString "unknown")) as [| | |s| |] eqn:Hd;
        try discriminate Hhash.
      1,2,3: rewrite (Hun eq_refl) by (intros ? [=]);
             exists [], fields; cbn [snd log]; rewrite calls_app; cbn;
             now rewrite !app_nil_r.
      destruct (message_handlers (self w) !! s) as [hs|] eqn:Hs.
      * rewrite (on_message_registered E _ _ _ _ _ Hload Hd Hs).
        exists hs, fields. cbn [snd log].
        now rewrite calls_app, calls_dispatch_log.
      * destruct (printable (JString s)) eqn:Hprint.
        -- rewrite (Hun eq_refl) by (intros s' [= <-]; exact Hs).
           exists [], fields. cbn [snd log]. rewrite calls_app. cbn.
           now rewrite !app_nil_r.
        -- rewrite (Hbad eq_refl) by (intros s' [= <-]; exact Hs).
           exists [], fields. cbn. now rewrite app_nil_r.
    + rewrite (on_message_unhashable E message fields w Hload Hhash).
      exists [], fields. cbn. now rewrite app_nil_r.
  - rewrite (on_message_undecodable_run message w Hload).
    exists [], [].
    destruct (encodable message); cbn [snd log]; rewrite !calls_app; cbn;
      now rewrite !app_nil_r.
Qed.

End Frames.

(** X16: a frame on which [json.loads] raises [JSONDecodeError] calls no
    handler, whatever is registered, and leaves the client's fields alone.
    Where the text of the frame can be written to standard output, it is
    reported with two lines and the callback returns; where it cannot, the
    first line is printed and the print of the frame raises out of the
    callback.  (In [env], [json_loads] answers [None] for exactly the
    frames on which [json.loads] raises [JSONDecodeError].) *)
Theorem on_message_undecodable (E : env) (message : string) (w : world) :
  json_loads E message = None ->
  let w' := snd (_on_message E message w) in
  self w' = self w
  /\ calls (log w') = calls (log w)
  /\ (encodable message = true ->
      fst (_on_message E message w) = Returned tt
      /\ log w' = log w ++ [Print (DecodeFailed JSONDecodeError);
                            Print (RawMessage message)])
  /\ (encodable message = false ->
      fst (_on_message E message w) = Raised UnicodeEncodeError
      /\ log w' = log w ++ [Print (DecodeFailed JSONDecodeError)]).
Proof.
  intros Hload. rewrite (on_message_undecodable_run E message w Hload).
  destruct (encodable message); cbn [fst snd self log];
    (split; [reflexivity|]);
    (split; [rewrite !calls_app; cbn; now rewrite !app_nil_r|]);
    split; intros H; try discriminate H; split; try reflexivity.
  now rewrite <- app_assoc.
Qed.

Lemma on_message_undecodable_witness :
  let w := snd (registrations [("GpioMessage", 2)] Sample.fresh_client) in
  (fst (_on_message Sample.environment "not json" w) = Returned tt
   /\ log (snd (_on_message Sample.environment "not json" w))
      = [Print (DecodeFailed JSONDecodeError); Print (RawMessage "not json")])
  /\ (fst (_on_message Sample.environment Sample.lone_surrogate w)
      = Raised UnicodeEncodeError
      /\ log (snd (_on_message Sample.environment Sample.lone_surrogate w))
         = [Print (DecodeFailed JSONDecodeError)]).
Proof.
  intros w. split.
  - destruct (on_message_undecodable Sample.environment "not json" w eq_refl)
      as (_ & _ & Hgood & _).
    exact (Hgood eq_refl).
  - destruct (on_message_undecodable Sample.environment Sample.lone_surrogate w eq_refl)
      as (_ & _ & _ & Hbad).
    exact (Hbad eq_refl).
Defined.

(** X17: a frame that is valid JSON but not an object (a list, a string, a
    number, a boolean, null) makes the callback raise [AttributeError]:
    nothing is printed, no handler is called, and the error is not the one
    the callback catches. *)
Theorem on_message_rejects_non_objects (E : env) (message : string) (v : json)
    (w : world) :
  json_loads E message = Some v ->
  (forall fields, v <> JObject fields) ->
  _on_message E message w = (Raised AttributeError, w)
  /\ is_JSONDecodeError AttributeError = false.
Proof.
  intros Hload Hv. split; [|reflexivity].
  now apply on_message_not_an_object with (v := v).
Qed.

Lemma on_message_rejects_non_objects_witness :
  let E := {| pyobj := json;
              json_loads := fun _ => Some (JArray [JNumber 1; JNumber 2]);
              json_dumps := fun _ => inr EmptyString;
              run_handler := fun _ _ _ => None;
              transport_write := fun _ _ _ => None;
              handshake := fun _ _ => true |} in
  _on_message E "[1, 2]" Sample.fresh_client = (Raised AttributeError, Sample.fresh_client).
Proof.
  intros E.
  refine (proj1 (on_message_rejects_non_objects E "[1, 2]"
                   (JArray [JNumber 1; JNumber 2]) Sample.fresh_client eq_refl _)).
  intros fields; discriminate.
Defined.

(** X18: a handler is only ever called with a decoded JSON object: for
    every frame and every state, each call that [_on_message] adds to the
    log carries an object. *)
Theorem handlers_receive_objects (E : env) (message : string) (w : world) :
  exists new_calls,
    calls (log (snd (_on_message E message w))) = calls (log w) ++ new_calls
    /\ Forall (fun call => exists fields, snd call = JObject fields) new_calls.
Proof.
  destruct (on_message_calls E message w) as (hs & fields & H).
  exists (map (fun h => (h, JObject fields)) hs). split; [exact H|].
  apply Forall_map. apply Forall_forall. intros h _. now exists fields.
Qed.

End ClientFacts.

(** ** Error handlers *)

Module ErrorHandlerFacts.
Import Runtime ErrorHandlers.






End ErrorHandlerFacts.



(** ** The message buffer of the test library *)

Module AdapterFacts.
Import Runtime Adapter.

Lemma get_messages_by_type_cons (t : string) (msg : json) (rest l : list json) :
  get_messages_by_type t (msg :: rest) = Returned l ->
  exists keep l',
    has_type t msg = Returned keep
    /\ get_messages_by_type t rest = Returned l'
    /\ l = if keep then msg :: l' else l'.
Proof.
  cbn [get_messages_by_type].
  destruct (has_type t msg) as [keep|e]; [|discriminate].
  destruct (get_messages_by_type t rest) as [l'|e]; [|discriminate].
  intros [= <-]. now exists keep, l'.
Qed.

Lemma has_type_other (t t' : string) (msg : json) :
  t' <> t -> has_type t msg = Returned true -> has_type t' msg = Returned false.
Proof.
  intros Hne. destruct msg as [| | | | |fields]; try discriminate.
  cbn [has_type]. destruct (assoc "type" fields) as [[| | |s| |]|]; try discriminate.
  intros [= Hs]. apply String.eqb_eq in Hs. subst s.
  f_equal. apply String.eqb_neq. congruence.
Qed.

(** The pass finds the first message that the by-type listing has, and
    takes exactly that one out. *)
Lemma take_first_spec (t : string) :
  forall (rest seen l : list json),
    get_messages_by_type t rest = Returned l ->
    match l with
    | [] => take_first t seen rest = Returned (None, seen ++ rest)
    | m :: l' =>
        exists before after,
          rest = before ++ m :: after
          /\ has_type t m = Returned true
          /\ get_messages_by_type t before = Returned []
          /\ get_messages_by_type t after = Returned l'
          /\ take_first t seen rest = Returned (Some m, seen ++ before ++ after)
    end.
Proof.
  induction rest as [|msg rest IH]; intros seen l Hl.
  - injection Hl as <-. cbn. now rewrite app_nil_r.
  - destruct (get_messages_by_type_cons _ _ _ _ Hl) as (keep & l' & Hk & Hrest & ->).
    cbn [take_first]. rewrite Hk. destruct keep.
    + exists [], rest. repeat split; auto.
    + specialize (IH (seen ++ [msg]) l' Hrest). destruct l' as [|m l''].
      * rewrite IH. now rewrite <- app_assoc.
      * destruct IH as (before & after & -> & Hm & Hb & Ha & Hrun).
        exists (msg :: before), after. repeat split; auto.
        -- cbn [get_messages_by_type]. now rewrite Hk, Hb.
        -- rewrite Hrun. now rewrite <- !app_assoc.
Qed.

Lemma get_messages_by_type_app (t : string) (a b l : list json) :
  get_messages_by_type t (a ++ b) = Returned l ->
  exists la lb,
    get_messages_by_type t a = Returned la
    /\ get_messages_by_type t b = Returned lb /\ l = la ++ lb.
Proof.
  revert l. induction a as [|msg a IH]; intros l Hl.
  - exists [], l. now repeat split.
  - rewrite <- app_comm_cons in Hl.
    destruct (get_messages_by_type_cons _ _ _ _ Hl) as (keep & l' & Hk & Hrest & ->).
    destruct (IH _ Hrest) as (la & lb & Ha & Hb & ->).
    exists (if keep then msg :: la else la), lb.
    cbn [get_messages_by_type]. rewrite Hk, Ha. now destruct keep.
Qed.

Lemma get_messages_by_type_join (t : string) (a b la lb : list json) :
  get_messages_by_type t a = Returned la ->
  get_messages_by_type t b = Returned lb ->
  get_messages_by_type t (a ++ b) = Returned (la ++ lb).
Proof.
  revert la. induction a as [|msg a IH]; intros la Ha Hb.
  - injection Ha as <-. exact Hb.
  - destruct (get_messages_by_type_cons _ _ _ _ Ha) as (keep & l' & Hk & Hrest & ->).
    rewrite <- app_comm_cons. cbn [get_messages_by_type].
    rewrite Hk, (IH _ Hrest Hb). now destruct keep.
Qed.

End AdapterFacts.

(** X20: waiting for a message of a type takes messages in arrival order.
    On a buffer that [get_messages_by_type] can list, one pass of the wait
    loop returns the first message of the listing and removes exactly that
    one: the listing of the type loses its head, the listing of every other
    type is unchanged, and with no message of the type the buffer stays as
    it is. *)
Theorem take_first_by_type (t : string) (received_messages l : list Runtime.json) :
  Adapter.get_messages_by_type t received_messages = Runtime.Returned l ->
  exists after_pass,
    Adapter.take_first t [] received_messages
    = Runtime.Returned (match l with [] => None | m :: _ => Some m end, after_pass)
    /\ Adapter.get_messages_by_type t after_pass = Runtime.Returned (List.tl l)
    /\ Adapter.get_message_count received_messages
       = Adapter.get_message_count after_pass + match l with [] => 0 | _ :: _ => 1 end
    /\ (l = [] -> after_pass = received_messages)
    /\ forall t' l',
         t' <> t ->
         Adapter.get_messages_by_type t' received_messages = Runtime.Returned l' ->
         Adapter.get_messages_by_type t' after_pass = Runtime.Returned l'.
Proof.
  intros Hl. pose proof (AdapterFacts.take_first_spec t received_messages [] l Hl) as H.
  destruct l as [|m l'].
  - exists received_messages. cbn [app] in H.
    repeat split; auto; unfold Adapter.get_message_count; lia.
  - destruct H as (before & after & -> & Hm & Hb & Ha & Hrun).
    exists (before ++ after). cbn [app] in Hrun. repeat split.
    + exact Hrun.
    + exact (AdapterFacts.get_messages_by_type_join t _ _ _ _ Hb Ha).
    + unfold Adapter.get_message_count. rewrite !length_app. cbn. lia.
    + discriminate.
    + intros t' l'' Hne Hl'.
      destruct (AdapterFacts.get_messages_by_type_app _ _ _ _ Hl') as (la & lb & Hla & Hlb & ->).
      destruct (AdapterFacts.get_messages_by_type_cons _ _ _ _ Hlb)
        as (keep & lb' & Hk & Hafter & ->).
      rewrite (AdapterFacts.has_type_other t t' m Hne Hm) in Hk. injection Hk as <-.
      exact (AdapterFacts.get_messages_by_type_join t' _ _ _ _ Hla Hafter).
Qed.

Lemma take_first_by_type_witness :
  let ack := Runtime.JObject [("type", Runtime.JString "GpioAck")] in
  let low := Runtime.JObject [("type", Runtime.JString "GpioMessage");
                              ("payload", Runtime.JObject [("status", Runtime.JString "low")])] in
  Adapter.take_first "GpioMessage" [] [ack; Sample.frame; low]
  = Runtime.Returned (Some Sample.frame, [ack; low]).
Proof.
  intros ack low.
  destruct (take_first_by_type "GpioMessage" [ack; Sample.frame; low]
              [Sample.frame; low] eq_refl) as (after_pass & Hrun & _).
  rewrite Hrun. vm_compute in Hrun. injection Hrun as <-. reflexivity.
Defined.
